(** * taco: frozen-density-embedding glue code, shallow embedding

    Sources embedded here:
    - [taco/playground/fde_psi4.py]   (non-additive functionals on a grid)
    - [taco/methods/scf.py]           (the [ScfMethod] base class)
    - [taco/methods/scf_pyscf.py]     (the PySCF-backed [ScfPyScf])

    Conventions.
    - A numpy float array is an index function together with its shape; its
      binary64 entries are idealised as real numbers, so rounding, infinities
      and nan are not part of the model of the grid code ([Fde]).  Where a
      relation is exact in the reals only, the same lines are also given on
      binary64 numbers ([Fde64]).
    - Python scalars stored on objects (tolerances, energies) are binary64
      floats and are kept as such ([PrimFloat]).
    - A Python exception is the [Raise] branch of [result].
    - What PySCF, psi4 and qcelemental compute is not part of the repository:
      it enters as section variables, and only the way the repository's code
      threads those values is modelled. *)

From stdpp Require Import gmap strings list.
From Stdlib Require Import Reals Lra.
From Stdlib Require Import Floats.
From Stdlib Require Import Ascii.

(* ===================================================================== *)
(** * Exceptions                                                          *)
(* ===================================================================== *)

Inductive pyexc : Type :=
| TypeError | AttributeError | ValueError | IndexError | KeyError
| NotImplementedError.

Inductive result (A : Type) : Type :=
| Ok (a : A)
| Raise (e : pyexc).
Arguments Ok {A} a.
Arguments Raise {A} e.

#[global] Instance result_ret : MRet result := fun A a => Ok a.
#[global] Instance result_bind : MBind result := fun A B k m =>
  match m with
  | Ok a => k a
  | Raise e => Raise e
  end.

(* ===================================================================== *)
(** * fde_psi4.py                                                         *)
(* ===================================================================== *)

Module Fde.
Local Open Scope R_scope.

(** A one-dimensional array: the entries [0 .. n-1] of an index function. *)
Definition vec := nat -> R.
(** A two-dimensional array. *)
Definition mat := nat -> nat -> R.

(** [sum_n n f] is [f 0 + f 1 + ... + f (n-1)]: the contraction of one
    einsum index of extent [n]. *)
Fixpoint sum_n (n : nat) (f : nat -> R) : R :=
  match n with
  | O => 0
  | S k => sum_n k f + f k
  end.

(** [np.einsum('a,a->', w, e)] on arrays of length [n]. *)
Definition einsum_a_a (n : nat) (w e : vec) : R :=
  sum_n n (fun a => w a * e a).

(** [np.einsum('pm,mn,pn->p', phi, lD, phi)] with [k] local functions. *)
Definition einsum_pm_mn_pn (k : nat) (phi lD : mat) : vec :=
  fun p => sum_n k (fun m => sum_n k (fun n => phi p m * lD m n * phi p n)).

(** [np.einsum('pb,p,p,pa->ab', phi, v, w, phi)] with [np] grid points. *)
Definition einsum_pb_p_p_pa (np : nat) (phi : mat) (v w : vec) : mat :=
  fun a b => sum_n np (fun p => phi p b * v p * w p * phi p a).

(** [np.zeros_like]. *)
Definition zeros_like (_ : mat) : mat := fun _ _ => 0.

(** [scipy.linalg.block_diag(A, B)] for [A] of shape [(ra, ca)]: [A] in the
    upper left corner, [B] in the lower right one, zero elsewhere. *)
Definition block_diag (ra ca : nat) (A B : mat) : mat :=
  fun i j =>
    if (i <? ra)%nat
    then (if (j <? ca)%nat then A i j else 0)
    else (if (j <? ca)%nat then 0 else B (i - ra)%nat (j - ca)%nat).

(** [M[(lpos[:, None], lpos)]] on a square array of [n] rows: the
    sub-array on the rows and columns listed in [lpos]; an index outside
    the array is an IndexError. *)
Definition in_bounds (n : nat) (lpos : list nat) : bool :=
  forallb (fun g => (g <? n)%nat) lpos.

Definition fancy_get (n : nat) (M : mat) (lpos : list nat) : result mat :=
  if in_bounds n lpos
  then Ok (fun a b => M (nth a lpos O) (nth b lpos O))
  else Raise IndexError.

(** One cell assignment [M[i, j] = x]. *)
Definition set_cell (M : mat) (i j : nat) (x : R) : mat :=
  fun i' j' => if ((i' =? i)%nat && (j' =? j)%nat)%bool then x else M i' j'.

(** [M[(lpos[:, None], lpos)] = T]: the cells are assigned one after the
    other in row-major order of the index arrays, so that the last
    assignment to a cell stands. *)
Definition fancy_set (n : nat) (M : mat) (lpos : list nat) (T : mat)
  : result mat :=
  if in_bounds n lpos
  then Ok (fold_left
             (fun M' ab => set_cell M' (nth (fst ab) lpos O) (nth (snd ab) lpos O)
                                    (T (fst ab) (snd ab)))
             (list_prod (seq 0 (length lpos)) (seq 0 (length lpos))) M)
  else Raise IndexError.

(** The last element of a list that satisfies [P]: which of several
    assignments to one cell stands. *)
Fixpoint last_match {A : Type} (P : A -> bool) (l : list A) : option A :=
  match l with
  | [] => None
  | x :: r =>
      match last_match P r with
      | Some y => Some y
      | None => if P x then Some x else None
      end
  end.

(** [M[(lpos[:, None], lpos)] += S]: read the sub-array, add, write back. *)
Definition fancy_iadd (n : nat) (M : mat) (lpos : list nat) (S : mat)
  : result mat :=
  cur ← fancy_get n M lpos;
  fancy_set n M lpos (fun a b => cur a b + S a b).

(** [np.power(x, y)] on a base [x >= 0] with an exponent [y > 0]:
    [exp (y * ln x)] for a positive base and [0] at [0].  (numpy answers nan
    on a negative base with a fractional exponent; the reals have no such
    value and the model is not meant for that case.) *)
Definition np_power (x y : R) : R :=
  if Rlt_dec 0 x then Rpower x y else 0.

(** [compute_kinetic_tf] (lines 97-102). *)
Definition cf : R := 2.8712.

Definition compute_kinetic_tf (rho : vec) : vec * vec :=
  let et := fun p => cf * np_power (rho p) (5 / 3) in
  let vt := fun p => cf * 5 / 3 * np_power (rho p) (2 / 3) in
  (et, vt).

(** ** The psi4 objects the loop works on *)

(** A grid block as the loop reads it: [block.npoints()],
    [block.functions_local_to_global()], [block.w()], and the basis values
    ["PHI"] that [points_func.compute_points(block)] leaves behind. *)
Record block : Type := {
  npoints : nat;
  functions_local_to_global : list nat;
  w : vec;
  basis_values_PHI : mat
}.

(** The density of the density matrix [D] on the points of a block:
    [2 * sum_mn phi(p,m) D(m,n) phi(p,n)] over the block's basis
    functions. *)
Definition grid_density (D : mat) (blk : block) : vec :=
  fun p => 2 * einsum_pm_mn_pn (length (functions_local_to_global blk))
                 (basis_values_PHI blk)
                 (fun a b => D (nth a (functions_local_to_global blk) O)
                               (nth b (functions_local_to_global blk) O)) p.

(** The grid quadrature of a per-point energy density [f] of the density
    of [D]: the sum over all blocks of the weights times [f]. *)
Definition quadrature (f : R -> R) (D : mat) (blocks : list block) : R :=
  fold_right
    (fun blk acc =>
       einsum_a_a (npoints blk) (w blk) (fun p => f (grid_density D blk p)) + acc)
    0 blocks.

(** A square array is symmetric. *)
Definition symmetric (M : mat) : Prop := forall i j, M i j = M j i.

(** psi4's SuperFunctional owns the vectors it computes into:
    [compute_functional] refills them and hands out a dictionary of those
    same vector objects on every call.  [values_V] and [values_V_RHO_A] are
    the two vectors the loop reads; a dictionary entry is a reference to one
    of them. *)
Record superfunctional : Type := {
  values_V : vec;
  values_V_RHO_A : vec
}.

Inductive vector_ref : Type := RefV | RefVRhoA.

Definition values_dict := string -> option vector_ref.

Definition getitem (d : values_dict) (key : string) : result vector_ref :=
  match d key with
  | Some r => Ok r
  | None => Raise KeyError
  end.

(** [np.array(vector)]: a copy of what the vector holds now. *)
Definition np_array (sf : superfunctional) (r : vector_ref) : vec :=
  match r with
  | RefV => values_V sf
  | RefVRhoA => values_V_RHO_A sf
  end.

Section Loop.

(** The functional: energy density and potential at a point of density
    [rho] (Slater exchange plus VWN correlation in the script). *)
Variable xc_e : R -> R.
Variable xc_v : R -> R.

(** [superfunc.compute_functional(inp, -1)] with [inp["RHO_A"]] a vector of
    [np] entries: the first [np] entries of the functional's vectors are
    overwritten. *)
Definition compute_functional (sf : superfunctional) (rho_a : vec) (np : nat)
  : superfunctional * values_dict :=
  ({| values_V := fun p => if (p <? np)%nat then xc_e (rho_a p) else values_V sf p;
      values_V_RHO_A :=
        fun p => if (p <? np)%nat then xc_v (rho_a p) else values_V_RHO_A sf p |},
   fun key => if String.eqb key "V" then Some RefV
              else if String.eqb key "V_RHO_A" then Some RefVRhoA
              else None).

(** The variables of lines 140-150 together with the functional's state. *)
Record loop_state : Type := {
  nelec_a : R; nelec_b : R; nelec_tot : R;
  exc_a : R; exc_b : R; exc_tot : R;
  et_a : R; et_b : R; et_tot : R;
  V : mat; Vt : mat;
  superfunc : superfunctional
}.

(** The density matrices of lines 124-132: [dma] has [na] rows and
    columns, [dmb] has [nb]. *)
Variables na nb : nat.
Variables dma dmb : mat.

Definition dazeros : mat := zeros_like dma.
Definition dbzeros : mat := zeros_like dmb.
Definition dm_both : mat := block_diag na na dma dmb.
Definition dma_sup : mat := block_diag na na dma dbzeros.
Definition dmb_sup : mat := block_diag na na dazeros dmb.
Definition nbf : nat := (na + nb)%nat.

Definition init_state (sf : superfunctional) : loop_state :=
  {| nelec_a := 0; nelec_b := 0; nelec_tot := 0;
     exc_a := 0; exc_b := 0; exc_tot := 0;
     et_a := 0; et_b := 0; et_tot := 0;
     V := zeros_like dm_both; Vt := zeros_like dm_both;
     superfunc := sf |}.

(** The three densities of a block (lines 164-171): local slices of the
    density matrices, then [rho], [rhoa] and [rhob]. *)
Definition block_densities (blk : block) : result (vec * vec * vec) :=
  let lpos := functions_local_to_global blk in
  let phi := basis_values_PHI blk in
  let nloc := length lpos in
  lD ← fancy_get nbf dm_both lpos;
  lDa ← fancy_get nbf dma_sup lpos;
  lDb ← fancy_get nbf dmb_sup lpos;
  let rho := fun p => 2 * einsum_pm_mn_pn nloc phi lD p in
  let rhoa := fun p => 2 * einsum_pm_mn_pn nloc phi lDa p in
  let rhob := fun p => 2 * einsum_pm_mn_pn nloc phi lDb p in
  mret (rho, rhoa, rhob).

(** One iteration of the block loop (lines 152-219). *)
Definition loop_body (st : loop_state) (blk : block) : result loop_state :=
  let npoints := npoints blk in
  let lpos := functions_local_to_global blk in
  let w := w blk in
  let phi := basis_values_PHI blk in
  rhos ← block_densities blk;
  let '(rho, rhoa, rhob) := rhos in
  (* the AB functional part *)
  let '(sf1, ret) := compute_functional (superfunc st) rho npoints in
  r ← getitem ret "V";
  let vk_tot := np_array sf1 r in
  let '(et, vt) := compute_kinetic_tf rho in
  let et_tot' := et_tot st + einsum_a_a npoints w et in
  let exc_tot' := exc_tot st + einsum_a_a npoints w vk_tot in
  r ← getitem ret "V_RHO_A";
  let v_rho_tot := np_array sf1 r in
  let vt_tot := vt in
  (* the A functional part *)
  let '(sf2, reta) := compute_functional sf1 rhoa npoints in
  r ← getitem ret "V";
  let vk_a := np_array sf2 r in
  let '(et, vt) := compute_kinetic_tf rhoa in
  let et_a' := et_a st + einsum_a_a npoints w et in
  let exc_a' := exc_a st + einsum_a_a npoints w vk_a in
  r ← getitem reta "V_RHO_A";
  let v_rho_a := np_array sf2 r in
  let vt_tot := fun p => vt_tot p - vt p in
  (* the B functional part *)
  let '(sf3, retb) := compute_functional sf2 rhob npoints in
  r ← getitem retb "V";
  let vk_b := np_array sf3 r in
  let '(et, vt) := compute_kinetic_tf rhob in
  let et_b' := et_b st + einsum_a_a npoints w et in
  let exc_b' := exc_b st + einsum_a_a npoints w vk_b in
  let nelec_tot' := nelec_tot st + einsum_a_a npoints w rho in
  let nelec_a' := nelec_a st + einsum_a_a npoints w rhoa in
  let nelec_b' := nelec_b st + einsum_a_a npoints w rhob in
  (* the XC derivative *)
  let v_rho_tot := fun p => v_rho_tot p - v_rho_a p in
  let Vtmp := einsum_pb_p_p_pa npoints phi v_rho_tot w in
  let Vtmp2 := einsum_pb_p_p_pa npoints phi vt_tot w in
  V' ← fancy_iadd nbf (V st) lpos (fun a b => 0.5 * (Vtmp a b + Vtmp b a));
  Vt' ← fancy_iadd nbf (Vt st) lpos (fun a b => 0.5 * (Vtmp2 a b + Vtmp2 b a));
  mret {| nelec_a := nelec_a'; nelec_b := nelec_b'; nelec_tot := nelec_tot';
          exc_a := exc_a'; exc_b := exc_b'; exc_tot := exc_tot';
          et_a := et_a'; et_b := et_b'; et_tot := et_tot';
          V := V'; Vt := Vt'; superfunc := sf3 |}.

(** [for b in range(len(grid.blocks()))]. *)
Fixpoint block_loop (st : loop_state) (blocks : list block) : result loop_state :=
  match blocks with
  | [] => mret st
  | blk :: rest => st' ← loop_body st blk; block_loop st' rest
  end.

(** Lines 227-228. *)
Definition enad_xc (st : loop_state) : R := exc_tot st - exc_a st - exc_b st.
Definition enad_t (st : loop_state) : R := et_tot st - et_a st - et_b st.

End Loop.
End Fde.

(** A small grid used to run the loop: one basis function per subsystem,
    one block of one point that sees both functions. *)
Module FdeExample.
Import Fde.
Local Open Scope R_scope.

Definition dma : mat := fun _ _ => 1.
Definition dmb : mat := fun _ _ => 3.
Definition blk : block :=
  {| npoints := 1;
     functions_local_to_global := [0%nat; 1%nat];
     w := fun _ => 1;
     basis_values_PHI := fun _ _ => 1 |}.
Definition sf0 : superfunctional :=
  {| values_V := fun _ => 0; values_V_RHO_A := fun _ => 0 |}.
Definition xc_e : R -> R := fun r => r * r.
Definition xc_v : R -> R := fun r => 2 * r.

End FdeExample.

(* ===================================================================== *)
(** * Text                                                                *)
(* ===================================================================== *)

(** Python [str] values are kept as [string]s whose characters are the code
    points below 256. *)
Module PyStr.

Definition nl : string := String "010"%char EmptyString.

(** [sep.join(parts)]. *)
Definition join (sep : string) (parts : list string) : string :=
  String.concat sep parts.

(** [s.split(sep)] for a separator of one character: every occurrence
    splits, so that [n] separators give [n + 1] fields. *)
Fixpoint split (sep : ascii) (s : string) : list string :=
  match s with
  | EmptyString => [EmptyString]
  | String c rest =>
      if Ascii.eqb c sep then EmptyString :: split sep rest
      else match split sep rest with
           | [] => [String c EmptyString]
           | fld :: flds => String c fld :: flds
           end
  end.

(** The line boundaries of [str.splitlines] below code point 256: LF, VT,
    FF, CR, FS, GS, RS and NEL. *)
Definition is_linebreak (c : ascii) : bool :=
  let n := nat_of_ascii c in
  (n =? 10) || (n =? 11) || (n =? 12) || (n =? 13)
  || (n =? 28) || (n =? 29) || (n =? 30) || (n =? 133).

(** [s.splitlines()]: the lines without their boundaries; CR LF counts as
    one boundary and a boundary at the very end opens no further line. *)
Fixpoint splitlines (s : string) : list string :=
  match s with
  | EmptyString => []
  | String c rest =>
      if is_linebreak c then
        match rest with
        | String c2 rest2 =>
            if (nat_of_ascii c =? 13) && (nat_of_ascii c2 =? 10)
            then EmptyString :: splitlines rest2
            else EmptyString :: splitlines rest
        | EmptyString => [EmptyString]
        end
      else match splitlines rest with
           | [] => [String c EmptyString]
           | line :: lines => String c line :: lines
           end
  end.

(** [s.lower()] on code points below 256. *)
Definition lower_char (c : ascii) : ascii :=
  let n := nat_of_ascii c in
  if ((65 <=? n) && (n <=? 90)) || ((192 <=? n) && (n <=? 214))
     || ((216 <=? n) && (n <=? 222))
  then ascii_of_nat (n + 32) else c.

Fixpoint lower (s : string) : string :=
  match s with
  | EmptyString => EmptyString
  | String c rest => String (lower_char c) (lower rest)
  end.

End PyStr.

(* ===================================================================== *)
(** * fde_psi4.py : build_supersystem                                     *)
(* ===================================================================== *)

Module Supersystem.
Import PyStr.

(** A psi4 molecule as [to_arrays()] shows it: per atom the element symbol
    and the Cartesian coordinates in Bohr. *)
Record psi4_molecule : Type := {
  atoms : list (string * (R * R * R))
}.

(** [mol.to_arrays()]; of [geom, mass, elem, elez, uniq] the code keeps
    [geom] (one row of three coordinates per atom) and [elem]. *)
Definition to_arrays (mol : psi4_molecule) : list (list R) * list string :=
  (map (fun a => let '(x, y, z) := snd a in [x; y; z]) (atoms mol),
   map fst (atoms mol)).

(** [np.vstack] of two arrays whose rows have the same length. *)
Definition vstack (g1 g2 : list (list R)) : list (list R) := g1 ++ g2.

(** [np.append] of two one-dimensional arrays. *)
Definition np_append (e1 e2 : list string) : list string := e1 ++ e2.

(** [a.reshape(n, 1)]: a column of [n] rows, a ValueError for another
    size. *)
Definition reshape_column (n : nat) (a : list string) : result (list (list string)) :=
  if length a =? n then Ok (map (fun e => [e]) a) else Raise ValueError.

Section BuildSupersystem.

(** The text numpy gives a float64 when [np.hstack] promotes the
    coordinates to the string type of the element column. *)
Variable str_of_float : R -> string.

(** [np.hstack((elem_merged, geom_merged))]: the rows side by side, as
    strings; the row counts must agree. *)
Definition hstack (e : list (list string)) (g : list (list R))
  : result (list (list string)) :=
  if length e =? length g
  then Ok (zip_with (fun er gr => er ++ map str_of_float gr) e g)
  else Raise ValueError.

(** The geometry text handed to [psi4.geometry] (lines 9-28). *)
Definition build_supersystem (mol1 mol2 : psi4_molecule) : result string :=
  let '(geom1, elem1) := to_arrays mol1 in
  let '(geom2, elem2) := to_arrays mol2 in
  let geom_merged := vstack geom1 geom2 in
  elem_merged ← reshape_column (length geom_merged) (np_append elem1 elem2);
  mol ← hstack elem_merged geom_merged;
  let mol_string :=
    fold_left (fun acc a => acc +:+ (join " " a +:+ nl)) mol EmptyString in
  mret (nl +:+ "        0 1" +:+ nl
        +:+ "        " +:+ mol_string +:+ nl
        +:+ "        units au" +:+ nl
        +:+ "        symmetry c1" +:+ nl
        +:+ "        no_reorient" +:+ nl
        +:+ "        no_com" +:+ nl
        +:+ "        ").

(** The text of one atom: symbol and coordinates separated by one space,
    closed by a newline. *)
Definition atom_line (a : string * (R * R * R)) : string :=
  let '(el, (x, y, z)) := a in
  el +:+ " " +:+ str_of_float x +:+ " " +:+ str_of_float y
     +:+ " " +:+ str_of_float z +:+ nl.

(** A psi4 geometry text: the line of charge and multiplicity, one line per
    atom, then the unit and the frame keywords of the script. *)
Definition geometry_text (charge_mult : string) (ats : list (string * (R * R * R)))
           (units : string) : string :=
  nl +:+ "        " +:+ charge_mult +:+ nl
     +:+ "        " +:+ String.concat "" (map atom_line ats) +:+ nl
     +:+ "        units " +:+ units +:+ nl
     +:+ "        symmetry c1" +:+ nl
     +:+ "        no_reorient" +:+ nl
     +:+ "        no_com" +:+ nl
     +:+ "        ".

End BuildSupersystem.
End Supersystem.

(* ===================================================================== *)
(** * scf_pyscf.py : get_pyscf_molecule                                   *)
(* ===================================================================== *)

Module PyscfMolecule.
Import PyStr.

(** What the code reads of a qcelemental molecule: the attribute
    [molecular_multiplicity] ([None] when the object has no such attribute)
    and the text of [to_string(dtype='xyz')]. *)
Record molecule : Type := {
  molecular_multiplicity : option Z;
  to_string_xyz : string
}.

(** The arguments [gto.M] is called with. *)
Record pyscf_mol : Type := {
  atom : string;
  basis : string;
  spin : Z
}.

(** [len(line.split(' ')) < 4]. *)
Definition short_line (line : string) : bool :=
  length (split " "%char line) <? 4.

(** Lines 11-33. *)
Definition get_pyscf_molecule (mol : molecule) (basis : string) : result pyscf_mol :=
  match molecular_multiplicity mol with
  | None => Raise AttributeError
  | Some multiplicity =>
      let spin := (multiplicity - 1)%Z in
      let string := to_string_xyz mol in
      let lines := splitlines string in
      let count := fold_left (fun count line =>
                                if short_line line then S count else count)
                             lines O in
      let string := join nl (drop count lines) in
      Ok {| atom := string; basis := basis; spin := spin |}
  end.

(** The lines with fewer than four fields all come before the others. *)
Definition header_first (lines : list string) : Prop :=
  exists header body,
    lines = header ++ body /\
    forallb short_line header = true /\
    forallb (fun l => negb (short_line l)) body = true.

End PyscfMolecule.

(* ===================================================================== *)
(** * scf.py and scf_pyscf.py : the SCF method objects                    *)
(* ===================================================================== *)

Module Scf.
Import PyStr PyscfMolecule.

(** References into the store. *)
Definition loc := nat.

(** A two-dimensional float array with its shape. *)
Record ndarray : Type := {
  rows : nat;
  cols : nat;
  data : Fde.mat
}.

(** The Python values the classes handle.  [PyNdarray a] is a reference to
    the array stored at [a]; [PyLambdaConst a] is the function
    [lambda *args: pot] whose [pot] is the array stored at [a]. *)
Inductive pyval : Type :=
| PyNone
| PyBool (b : bool)
| PyInt (z : Z)
| PyFloat (f : float)
| PyStr (s : string)
| PyList (l : list pyval)
| PyNdarray (a : loc)
| PyLambdaConst (a : loc).

(** A PySCF mean-field object: its class and its instance dictionary. *)
Inductive solver_class : Type := RHF | RKS.

Record pyobject : Type := {
  cls : solver_class;
  dict : gmap string pyval
}.

(** The fields of a [ScfPyScf] instance ([ScfMethod] has the first four). *)
Record ScfPyScf : Type := {
  mol : molecule;
  new : bool;
  density : pyval;
  energy : gmap string pyval;
  mol_pyscf : pyscf_mol;
  scf_object : loc;
  _scf_object : loc
}.

(** The store: arrays and mean-field objects, by reference. *)
Record heap : Type := {
  arrays : list ndarray;
  objects : list pyobject
}.

(** An instance together with the store it lives in. *)
Record world : Type := {
  self : ScfPyScf;
  store : heap
}.

(** Computations that change the world and may raise; what was changed
    before an exception stays changed. *)
Definition M (A : Type) : Type := world -> world * result A.

#[global] Instance M_ret : MRet M := fun A a w => (w, Ok a).
#[global] Instance M_bind : MBind M := fun A B k m w =>
  match m w with
  | (w', Ok a) => k a w'
  | (w', Raise e) => (w', Raise e)
  end.

Definition raise {A : Type} (e : pyexc) : M A := fun w => (w, Raise e).
Definition lift {A : Type} (r : result A) : M A := fun w => (w, r).
Definition get_self : M ScfPyScf := fun w => (w, Ok (self w)).
Definition set_self (s : ScfPyScf) : M unit :=
  fun w => ({| self := s; store := store w |}, Ok tt).
Definition get_store : M heap := fun w => (w, Ok (store w)).
Definition set_store (h : heap) : M unit :=
  fun w => ({| self := self w; store := h |}, Ok tt).

(** A fresh array. *)
Definition alloc_array (a : ndarray) : M loc :=
  h ← get_store;
  set_store {| arrays := arrays h ++ [a]; objects := objects h |};;
  mret (length (arrays h)).

Definition read_array (l : loc) : M ndarray :=
  h ← get_store;
  match arrays h !! l with
  | Some a => mret a
  | None => raise ValueError
  end.

Definition write_array (l : loc) (a : ndarray) : M unit :=
  h ← get_store;
  set_store {| arrays := <[l := a]> (arrays h); objects := objects h |}.

Definition read_object (l : loc) : M pyobject :=
  h ← get_store;
  match objects h !! l with
  | Some o => mret o
  | None => raise AttributeError
  end.

(** [obj.name = v] on the object at [l]. *)
Definition setattr (l : loc) (name : string) (v : pyval) : M unit :=
  o ← read_object l;
  h ← get_store;
  set_store {| arrays := arrays h;
               objects := <[l := {| cls := cls o; dict := <[name := v]> (dict o) |}]>
                            (objects h) |}.

(** [copy(obj)]: a new object of the same class with the same entries (a
    shallow copy: an entry that is a reference refers to what it referred
    to). *)
Definition copy (l : loc) : M loc :=
  o ← read_object l;
  h ← get_store;
  set_store {| arrays := arrays h; objects := objects h ++ [o] |};;
  mret (length (objects h)).

(** [a += b] on float arrays: [b] must have the shape of [a] or extent one
    where it differs; the result keeps the shape of [a]. *)
Definition np_iadd (a b : ndarray) : result ndarray :=
  if ((rows b =? rows a) || (rows b =? 1)) && ((cols b =? cols a) || (cols b =? 1))
  then Ok {| rows := rows a; cols := cols a;
             data := fun i j =>
                       (data a i j
                        + data b (if rows b =? rows a then i else O)
                                 (if cols b =? cols a then j else O))%R |}
  else Raise ValueError.

(** What a method leaves alone when it only touches the arrays and the
    solver object of the instance. *)
Definition frame (w w' : world) : Prop :=
  self w' = self w /\
  length (objects (store w')) = length (objects (store w)) /\
  forall k, k <> scf_object (self w) ->
            objects (store w') !! k = objects (store w) !! k.

(** Python's [1e-12], the tolerance [get_energy] and [get_density] ask
    for: the binary64 number nearest to it. *)
Definition conv_tol_1e_12 : float := 0x1.19799812dea11p-40%float.

Section Pyscf.

(** PySCF: the instance attributes a constructor sets, *)
Variable pyscf_init : solver_class -> pyscf_mol -> gmap string pyval.
(** the data attributes of the classes, *)
Variable pyscf_class_attr : solver_class -> string -> option pyval.
(** the methods [get_hcore], [get_fock], [kernel] (which leaves its results
    in the instance dictionary) and [make_rdm1] of the classes, *)
Variable pyscf_get_hcore : pyobject -> list pyval -> result ndarray.
Variable pyscf_get_fock : pyobject -> heap -> result ndarray.
Variable pyscf_kernel : pyobject -> heap -> result (gmap string pyval).
Variable pyscf_make_rdm1 : pyobject -> result ndarray.
(** and numpy: whether [if arr != []] takes the branch. *)
Variable np_ne_empty_list : ndarray -> result bool.

(** [obj.name] for a data attribute. *)
Definition getattr (l : loc) (name : string) : M pyval :=
  o ← read_object l;
  match dict o !! name with
  | Some v => mret v
  | None =>
      match pyscf_class_attr (cls o) name with
      | Some v => mret v
      | None => raise AttributeError
      end
  end.

(** [obj.get_hcore] called with any arguments: the instance attribute when there is one, the
    method of the class otherwise. *)
Definition call_get_hcore (l : loc) (args : list pyval) : M pyval :=
  o ← read_object l;
  match dict o !! "get_hcore" with
  | Some (PyLambdaConst pot) => mret (PyNdarray pot)
  | Some _ => raise TypeError
  | None =>
      a ← lift (pyscf_get_hcore o args);
      r ← alloc_array a;
      mret (PyNdarray r)
  end.

(** ** scf.py : ScfMethod *)

(** [ScfMethod.__init__] (lines 35-48), for an argument that is a
    [Molecule]; any other object is a TypeError at line 44, before a field is
    set. *)
Definition ScfMethod_init (m : molecule) (mp : pyscf_mol) : ScfPyScf :=
  {| mol := m; new := true; density := PyList []; energy := ∅;
     mol_pyscf := mp; scf_object := O; _scf_object := O |}.

(** The property [restricted] (lines 50-53). *)
Definition restricted (s : ScfPyScf) : bool :=
  match molecular_multiplicity (mol s) with
  | Some m => (m =? 1)%Z
  | None => false
  end.

(** [v != []] as the condition of an [if]. *)
Definition ne_empty_list (v : pyval) : M bool :=
  match v with
  | PyList l => mret (negb (bool_decide (length l = O)))
  | PyNdarray a => arr ← read_array a; lift (np_ne_empty_list arr)
  | _ => mret true
  end.

(** The truth value of [v] as the condition of an [if]. *)
Definition truthy (v : pyval) : M bool :=
  match v with
  | PyNone => mret false
  | PyBool b => mret b
  | PyInt z => mret (negb (z =? 0)%Z)
  | PyFloat f => mret (negb (PrimFloat.eqb f 0%float))
  | PyStr s => mret (negb (bool_decide (String.length s = O)))
  | PyList l => mret (negb (bool_decide (length l = O)))
  | PyNdarray a =>
      arr ← read_array a;
      match (rows arr * cols arr)%nat with
      | O => mret false
      | S O => mret (if Req_dec_T (data arr O O) 0%R then false else true)
      | _ => raise ValueError
      end
  | PyLambdaConst _ => mret true
  end.

(** [self.energy["scf"]]. *)
Definition energy_scf : M pyval :=
  s ← get_self;
  match energy s !! "scf" with
  | Some e => mret e
  | None => raise KeyError
  end.

Section Dispatch.

(** [self.solve_scf], as the class of the instance defines it. *)
Variable solve_scf : list (string * pyval) -> M unit.

(** [get_density] (lines 56-62). *)
Definition get_density : M pyval :=
  s ← get_self;
  c ← ne_empty_list (density s);
  if (c : bool) then mret (density s)
  else
    solve_scf [("conv_tol", PyFloat conv_tol_1e_12)];;
    s ← get_self;
    mret (density s).

(** [get_energy] (lines 64-70). *)
Definition get_energy : M pyval :=
  s ← get_self;
  c ← truthy (default (PyInt 0) (energy s !! "scf"));
  if (c : bool) then energy_scf
  else
    solve_scf [("conv_tol", PyFloat conv_tol_1e_12)];;
    energy_scf.

End Dispatch.

(** [ScfMethod.solve_scf(self)] takes no keyword and is not implemented. *)
Definition ScfMethod_solve_scf (scfkwargs : list (string * pyval)) : M unit :=
  match scfkwargs with
  | [] => raise NotImplementedError
  | _ :: _ => raise TypeError
  end.

(** ** scf_pyscf.py : ScfPyScf *)

(** [ScfPyScf.__init__] (lines 67-97), on a store [h], where [gto.M] and
    the solver classes build their objects; an exception of theirs would
    leave no instance. *)
Definition ScfPyScf_init (m : molecule) (basis method : string)
           (xc_code : option string) (h : heap) : result world :=
  mp ← get_pyscf_molecule m basis;
  let s := ScfMethod_init m mp in
  if restricted s then
    o ← (if String.eqb (lower method) "dft" then
           match xc_code with
           | None => Raise ValueError
           | Some xc =>
               Ok {| cls := RKS; dict := <["xc" := PyStr xc]> (pyscf_init RKS mp) |}
           end
         else if String.eqb (lower method) "hf" then
           Ok {| cls := RHF; dict := pyscf_init RHF mp |}
         else Raise ValueError);
    let l := length (objects h) in
    Ok {| self := {| mol := m; new := true; density := PyList []; energy := ∅;
                     mol_pyscf := mp; scf_object := l; _scf_object := S l |};
          store := {| arrays := arrays h; objects := (objects h ++ [o]) ++ [o] |} |}
  else Raise NotImplementedError.

(** [get_fock] (lines 99-101). *)
Definition get_fock : M pyval :=
  s ← get_self;
  o ← read_object (scf_object s);
  h ← get_store;
  a ← lift (pyscf_get_fock o h);
  r ← alloc_array a;
  mret (PyNdarray r).

(** [perturb_fock] (lines 103-117). *)
Definition perturb_fock (pot : pyval) : M unit :=
  match pot with
  | PyNdarray p =>
      s ← get_self;
      ref ← call_get_hcore (scf_object s) [];
      match ref with
      | PyNdarray r =>
          a ← read_array p;
          b ← read_array r;
          c ← lift (np_iadd a b);
          write_array p c;;
          s ← get_self;
          setattr (scf_object s) "get_hcore" (PyLambdaConst p)
      | _ => raise TypeError
      end
  | _ => raise TypeError
  end.

(** [restore_scf_object] (lines 119-121). *)
Definition restore_scf_object : M unit :=
  s ← get_self;
  l ← copy (_scf_object s);
  s ← get_self;
  set_self {| mol := mol s; new := new s; density := density s;
              energy := energy s; mol_pyscf := mol_pyscf s;
              scf_object := l; _scf_object := _scf_object s |}.

(** The loop of lines 144-145: [self.scf_object.attr = scfkwargs[attr]]
    for every keyword. *)
Fixpoint solve_scf_options (scfkwargs : list (string * pyval)) : M unit :=
  match scfkwargs with
  | [] => mret tt
  | (attr, value) :: rest =>
      s ← get_self;
      setattr (scf_object s) "attr" value;;
      solve_scf_options rest
  end.

(** [solve_scf] (lines 123-148). *)
Definition solve_scf (scfkwargs : list (string * pyval)) : M unit :=
  solve_scf_options scfkwargs;;
  (* self.scf_object.kernel() *)
  s ← get_self;
  o ← read_object (scf_object s);
  h ← get_store;
  d ← lift (pyscf_kernel o h);
  set_store {| arrays := arrays h;
               objects := <[scf_object s := {| cls := cls o; dict := d |}]> (objects h) |};;
  (* self.energy["scf"] = self.scf_object.e_tot *)
  s ← get_self;
  e ← getattr (scf_object s) "e_tot";
  s ← get_self;
  set_self {| mol := mol s; new := new s; density := density s;
              energy := <["scf" := e]> (energy s); mol_pyscf := mol_pyscf s;
              scf_object := scf_object s; _scf_object := _scf_object s |};;
  (* self.density = self.scf_object.make_rdm1() *)
  s ← get_self;
  o ← read_object (scf_object s);
  a ← lift (pyscf_make_rdm1 o);
  r ← alloc_array a;
  s ← get_self;
  set_self {| mol := mol s; new := new s; density := PyNdarray r;
              energy := energy s; mol_pyscf := mol_pyscf s;
              scf_object := scf_object s; _scf_object := _scf_object s |}.

(** A sequence of [perturb_fock] calls, each with its own argument; a call
    that raises leaves the world as it was at the exception. *)
Definition perturb_fock_calls (pots : list pyval) (w : world) : world :=
  fold_left (fun w pot => fst (perturb_fock pot w)) pots w.

End Pyscf.
End Scf.

(** A restricted Hartree-Fock instance on carbon monoxide, used to run the
    methods: the constructor leaves [conv_tol = 1e-9] on the solver, the
    core Hamiltonian is a 1x1 array and the SCF energy is [-1.5]. *)
Module ScfExample.
Import PyStr PyscfMolecule Scf.

Definition conv_tol_default : float := 0x1.12e0be826d695p-30%float.

Definition co : molecule :=
  {| molecular_multiplicity := Some 1%Z;
     to_string_xyz :=
       "2" +:+ nl +:+ "0 1 CO" +:+ nl
           +:+ "C  -3.6  1.3  -0.02" +:+ nl
           +:+ "O  -4.7  1.5  0.11" +:+ nl |}.

Definition pyscf_init (c : solver_class) (m : pyscf_mol) : gmap string pyval :=
  {["conv_tol" := PyFloat conv_tol_default]}.
Definition pyscf_class_attr (c : solver_class) (name : string) : option pyval :=
  None.
Definition hcore : ndarray := {| rows := 1; cols := 1; data := fun _ _ => 2%R |}.
Definition pyscf_get_hcore (o : pyobject) (args : list pyval) : result ndarray :=
  Ok hcore.
Definition pyscf_kernel (o : pyobject) (h : heap) : result (gmap string pyval) :=
  Ok (<["e_tot" := PyFloat (-1.5)%float]> (dict o)).
Definition pyscf_make_rdm1 (o : pyobject) : result ndarray := Ok hcore.
(** numpy's [arr != []] as the condition of an [if], for a two-dimensional
    [arr]: the empty list is an array of shape [(0,)], which broadcasts
    against [(rows, cols)] only when [cols] is at most one; the comparison
    then gives an array without entries, which counts as false (up to
    NumPy 2.1; from 2.2 on its truth value is an error).  With two columns
    or more the comparison raises a ValueError (NumPy 1.25 and later). *)
Definition np_ne_empty_list (a : ndarray) : result bool :=
  if cols a <=? 1 then Ok false else Raise ValueError.

(** A density matrix on two basis functions, and a [make_rdm1] that returns
    it. *)
Definition rdm1 : ndarray :=
  {| rows := 2; cols := 2; data := fun i j => if i =? j then 1%R else 0%R |}.
Definition pyscf_make_rdm1_two (o : pyobject) : result ndarray := Ok rdm1.

Definition empty_heap : heap := {| arrays := []; objects := [] |}.

(** The instance after [ScfPyScf(co, "sto-3g", "hf")]. *)
Definition w0 : world :=
  {| self := {| mol := co; new := true; density := PyList []; energy := ∅;
                mol_pyscf := {| atom := "C  -3.6  1.3  -0.02" +:+ nl
                                          +:+ "O  -4.7  1.5  0.11";
                                basis := "sto-3g"; spin := 0%Z |};
                scf_object := 0; _scf_object := 1 |};
     store := {| arrays := [];
                 objects := [ {| cls := RHF;
                                 dict := {["conv_tol" := PyFloat conv_tol_default]} |};
                              {| cls := RHF;
                                 dict := {["conv_tol" := PyFloat conv_tol_default]} |} ] |} |}.

(** The same instance with a stored SCF energy of exactly [0.0]. *)
Definition w_zero_energy : world :=
  {| self := {| mol := mol (self w0); new := true; density := PyList [];
                energy := {["scf" := PyFloat 0%float]};
                mol_pyscf := mol_pyscf (self w0);
                scf_object := 0; _scf_object := 1 |};
     store := store w0 |}.

(** A potential: a 1x1 array stored at reference 0. *)
Definition pot : ndarray := {| rows := 1; cols := 1; data := fun _ _ => 5%R |}.
Definition w_pot : world :=
  {| self := self w0;
     store := {| arrays := [pot]; objects := objects (store w0) |} |}.

End ScfExample.

(* ===================================================================== *)
(** * fde_psi4.py : what the loop assembles, in closed form               *)
(* ===================================================================== *)

Module FdePotential.
Import Fde.
Local Open Scope R_scope.

(** The Thomas-Fermi energy density and potential at a point of density
    [r], as [compute_kinetic_tf] evaluates them. *)
Definition tf_e (r : R) : R := cf * np_power r (5 / 3).
Definition tf_v (r : R) : R := cf * 5 / 3 * np_power r (2 / 3).

(** The contribution of one block to a non-additive potential matrix, for
    the per-point potential [v]: over the block's points, the basis
    functions [a] and [b] weighted by [w * (v(rho) - v(rho_A))]. *)
Definition nad_matrix (v : R -> R) (D Da : mat) (blk : block) : mat :=
  fun a b =>
    sum_n (npoints blk)
          (fun p => basis_values_PHI blk p b
                    * (v (grid_density D blk p) - v (grid_density Da blk p))
                    * w blk p * basis_values_PHI blk p a).


(** Both basis functions belong to the block. *)
Definition block_touches (blk : block) (i j : nat) : Prop :=
  In i (functions_local_to_global blk) /\ In j (functions_local_to_global blk).

(** Two runs of the loop ended with the same numbers: the nine sums and
    every entry of [V] and [Vt]. *)
Definition same_results (st st' : loop_state) : Prop :=
  nelec_a st = nelec_a st' /\ nelec_b st = nelec_b st' /\
  nelec_tot st = nelec_tot st' /\
  exc_a st = exc_a st' /\ exc_b st = exc_b st' /\ exc_tot st = exc_tot st' /\
  et_a st = et_a st' /\ et_b st = et_b st' /\ et_tot st = et_tot st' /\
  (forall i j, V st i j = V st' i j) /\
  (forall i j, Vt st i j = Vt st' i j).

(** What a block adds to cell [(i, j)] of a potential matrix: the entry of
    [nad_matrix] at the local positions of [i] and [j], nothing when the
    block does not have both. *)
Definition block_contribution (v : R -> R) (D Da : mat) (blk : block) : mat :=
  fun i j =>
    let lpos := functions_local_to_global blk in
    match last_match (fun a => (i =? nth a lpos O)%nat) (seq 0 (length lpos)),
          last_match (fun b => (j =? nth b lpos O)%nat) (seq 0 (length lpos))
    with
    | Some a, Some b => nad_matrix v D Da blk a b
    | _, _ => 0
    end.

(** The common extent of an index that runs over [m] entries in one operand
    and [n] in the other: they must agree, except that an extent of one is
    stretched to the other. *)
Definition broadcast (m n : nat) : result nat :=
  if (m =? n)%nat then Ok m
  else if (m =? 1)%nat then Ok n
  else if (n =? 1)%nat then Ok m
  else Raise ValueError.

(** [np.einsum('ab,ba', A, B)] for [A] of shape [(ra, ca)] and [B] of shape
    [(rb, cb)]: the sum over both indices. *)
Definition einsum_ab_ba (ra ca : nat) (A : mat) (rb cb : nat) (B : mat)
  : result R :=
  ea ← broadcast ra cb;
  eb ← broadcast ca rb;
  mret (sum_n ea (fun a => sum_n eb (fun b =>
          A (if (ra =? 1)%nat then O else a) (if (ca =? 1)%nat then O else b)
          * B (if (rb =? 1)%nat then O else b) (if (cb =? 1)%nat then O else a)))).

(** Lines 225-226: [2*np.einsum('ab,ba', V[:10, :10], dma)] for [V] on the
    supersystem and [dma] of [na] rows and columns.  The slice keeps the
    rows and columns below ten that exist. *)
Definition int_emb (na nb : nat) (dma : mat) (V : mat) : result R :=
  let k := Nat.min 10 (nbf na nb) in
  e ← einsum_ab_ba k k V na na dma;
  mret (2 * e).


(** The sum of the grid weights. *)
Definition total_weight (blocks : list block) : R :=
  fold_right (fun blk acc => sum_n (npoints blk) (w blk) + acc) 0 blocks.

End FdePotential.

(* ===================================================================== *)
(** * scf_pyscf.py : an instance in use                                   *)
(* ===================================================================== *)

Module ScfCalls.
Import Scf.

(** The last value of a keyword list, the one the loop of lines 144-145
    leaves behind. *)
Definition last_value (scfkwargs : list (string * pyval)) : option pyval :=
  last (map snd scfkwargs).

(** What a call may change without touching the clean copy: the fields
    [scf_object] and [_scf_object] stay, no solver object is added, and only
    the solver the instance works with is written to. *)
Definition keeps (w w' : world) : Prop :=
  _scf_object (self w') = _scf_object (self w) /\
  scf_object (self w') = scf_object (self w) /\
  length (objects (store w')) = length (objects (store w)) /\
  forall k, k <> scf_object (self w) ->
            objects (store w') !! k = objects (store w) !! k.

(** The clean copy is the solver [o0], apart from the solver in use. *)
Definition clean_copy_is (o0 : pyobject) (w : world) : Prop :=
  objects (store w) !! _scf_object (self w) = Some o0 /\
  scf_object (self w) <> _scf_object (self w).

(** The solver as the keyword loop leaves it, and the store the kernel
    then sees. *)
Definition solver_after_keywords (kw : list (string * pyval)) (o : pyobject)
  : pyobject :=
  {| cls := cls o;
     dict := match last_value kw with
             | Some v => <["attr" := v]> (dict o)
             | None => dict o
             end |}.

Definition store_after_keywords (kw : list (string * pyval)) (w : world)
           (o : pyobject) : heap :=
  {| arrays := arrays (store w);
     objects := <[scf_object (self w) := solver_after_keywords kw o]>
                  (objects (store w)) |}.

End ScfCalls.

(* ===================================================================== *)
(** * fde_psi4.py in binary64                                             *)
(* ===================================================================== *)

(** The arithmetic of the script as numpy carries it out, on binary64
    numbers, for the lines whose relations are exact in the reals: the
    densities and electron counts of the block loop (lines 124-132, 140-142,
    164-171 and 208-210) and [compute_kinetic_tf] (lines 97-102). *)
Module Fde64.
Local Open Scope float_scope.

Definition vec := nat -> float.
Definition mat := nat -> nat -> float.

(** A contraction adds its terms one after the other into an accumulator
    that starts at zero, here in the order of the index tuples.  (numpy
    promises no order; for a sum with at most two terms that are not zero
    every order gives the same number.) *)
Definition sum_terms (terms : list float) : float :=
  fold_left PrimFloat.add terms 0.

(** [np.einsum('a,a->', w, e)] on arrays of length [n]. *)
Definition einsum_a_a (n : nat) (w e : vec) : float :=
  sum_terms (map (fun a => w a * e a) (seq 0 n)).

(** [np.einsum('pm,mn,pn->p', phi, lD, phi)] with [k] local functions. *)
Definition einsum_pm_mn_pn (k : nat) (phi lD : mat) : vec :=
  fun p =>
    sum_terms (map (fun mn => phi p (fst mn) * lD (fst mn) (snd mn) * phi p (snd mn))
                   (list_prod (seq 0 k) (seq 0 k))).

Definition zeros_like (_ : mat) : mat := fun _ _ => 0.

Definition block_diag (ra ca : nat) (A B : mat) : mat :=
  fun i j =>
    if (i <? ra)%nat
    then (if (j <? ca)%nat then A i j else 0)
    else (if (j <? ca)%nat then 0 else B (i - ra)%nat (j - ca)%nat).

Definition fancy_get (n : nat) (M : mat) (lpos : list nat) : result mat :=
  if Fde.in_bounds n lpos
  then Ok (fun a b => M (nth a lpos O) (nth b lpos O))
  else Raise IndexError.

Record block : Type := {
  npoints : nat;
  functions_local_to_global : list nat;
  w : vec;
  basis_values_PHI : mat
}.


Section Loop.

Variables na nb : nat.
Variables dma dmb : mat.

Definition dazeros : mat := zeros_like dma.
Definition dbzeros : mat := zeros_like dmb.
Definition dm_both : mat := block_diag na na dma dmb.
Definition dma_sup : mat := block_diag na na dma dbzeros.
Definition dmb_sup : mat := block_diag na na dazeros dmb.
Definition nbf : nat := (na + nb)%nat.


(** Lines 164-171. *)
Definition block_densities (blk : block) : result (vec * vec * vec) :=
  let lpos := functions_local_to_global blk in
  let phi := basis_values_PHI blk in
  let nloc := length lpos in
  lD ← fancy_get nbf dm_both lpos;
  lDa ← fancy_get nbf dma_sup lpos;
  lDb ← fancy_get nbf dmb_sup lpos;
  let rho := fun p => 2 * einsum_pm_mn_pn nloc phi lD p in
  let rhoa := fun p => 2 * einsum_pm_mn_pn nloc phi lDa p in
  let rhob := fun p => 2 * einsum_pm_mn_pn nloc phi lDb p in
  mret (rho, rhoa, rhob).



End Loop.

(** [np.power(x, y)] where IEEE 754 fixes the result whatever the library:
    [pow(1, y)] and [pow(x, 0)] are [1] for every [y] and [x].  Elsewhere the
    result is the library's rounding of the power, and the model gives
    none. *)
Definition np_power (x y : float) : option float :=
  if x =? 1 then Some 1
  else if y =? 0 then Some 1
  else None.

(** [cf = 2.8712], the binary64 number nearest to it. *)
Definition cf : float := 0x1.6f837b4a2339cp+1.

(** [compute_kinetic_tf] (lines 97-102): [5./3.] and [2./3.] are quotients
    of floats, [cf*5/3*np.power(...)] is evaluated from the left. *)
Definition compute_kinetic_tf (rho : list float) : option (list float * list float) :=
  et ← mapM (fun r => p ← np_power r (5 / 3); Some (cf * p)) rho;
  vt ← mapM (fun r => p ← np_power r (2 / 3); Some (cf * 5 / 3 * p)) rho;
  Some (et, vt).

End Fde64.

(** One grid point that sees one basis function of each subsystem, with
    weight [0.1]; [dma = [[0.5]]] and [dmb = [[2.5]]]. *)
Module Fde64Example.
Import Fde64.
Local Open Scope float_scope.

Definition dma : mat := fun _ _ => 0.5.
Definition dmb : mat := fun _ _ => 2.5.
Definition blk : block :=
  {| npoints := 1;
     functions_local_to_global := [0%nat; 1%nat];
     w := fun _ => 0x1.999999999999ap-4;
     basis_values_PHI := fun _ _ => 1 |}.

End Fde64Example.

(* ===================================================================== *)
(** * Facts about fde_psi4.py                                             *)
(* ===================================================================== *)

Lemma bind_Ok_inv {A B : Type} (m : result A) (k : A -> result B) (b : B) :
  m ≫= k = Ok b -> exists a, m = Ok a /\ k a = Ok b.
Proof.
  destruct m as [a | e]; intros H.
  - exists a. split; [reflexivity | exact H].
  - discriminate H.
Qed.

Section FdeSums.
Import Fde.
Local Open Scope R_scope.

Lemma sum_n_ext (n : nat) (f g : nat -> R) :
  (forall i, (i < n)%nat -> f i = g i) -> sum_n n f = sum_n n g.
Proof.
  induction n as [| n IH]; intros H; simpl.
  - reflexivity.
  - rewrite IH by (intros i Hi; apply H; lia). rewrite (H n) by lia. reflexivity.
Qed.

Lemma sum_n_plus (n : nat) (f g : nat -> R) :
  sum_n n (fun i => f i + g i) = sum_n n f + sum_n n g.
Proof.
  induction n as [| n IH]; simpl.
  - ring.
  - rewrite IH. ring.
Qed.

Lemma einsum_pm_mn_pn_ext (k : nat) (phi L L' : mat) (p : nat) :
  (forall a b, L a b = L' a b) ->
  einsum_pm_mn_pn k phi L p = einsum_pm_mn_pn k phi L' p.
Proof.
  intros H. unfold einsum_pm_mn_pn.
  apply sum_n_ext; intros m _. apply sum_n_ext; intros n _.
  rewrite H. reflexivity.
Qed.

Lemma einsum_pm_mn_pn_plus (k : nat) (phi L L' : mat) (p : nat) :
  einsum_pm_mn_pn k phi (fun a b => L a b + L' a b) p
  = einsum_pm_mn_pn k phi L p + einsum_pm_mn_pn k phi L' p.
Proof.
  unfold einsum_pm_mn_pn. rewrite <- sum_n_plus.
  apply sum_n_ext; intros m _. rewrite <- sum_n_plus.
  apply sum_n_ext; intros n _. ring.
Qed.


Lemma einsum_a_a_ext (n : nat) (w e e' : vec) :
  (forall p, (p < n)%nat -> e p = e' p) -> einsum_a_a n w e = einsum_a_a n w e'.
Proof.
  intros H. unfold einsum_a_a. apply sum_n_ext; intros a Ha.
  rewrite (H a Ha). reflexivity.
Qed.

(** The block-diagonal supersystem matrix is the sum of the padded ones. *)
Lemma dm_both_split (na : nat) (dma dmb : mat) (i j : nat) :
  dm_both na dma dmb i j = dma_sup na dma dmb i j + dmb_sup na dma dmb i j.
Proof.
  unfold dm_both, dma_sup, dmb_sup, dazeros, dbzeros, block_diag, zeros_like.
  destruct (i <? na)%nat, (j <? na)%nat; ring.
Qed.

Lemma fancy_get_Ok_inv (n : nat) (M L : mat) (lpos : list nat) :
  fancy_get n M lpos = Ok L ->
  in_bounds n lpos = true /\ L = (fun a b => M (nth a lpos O) (nth b lpos O)).
Proof.
  unfold fancy_get. destruct (in_bounds n lpos); intros H.
  - injection H as <-. split; reflexivity.
  - discriminate H.
Qed.

Lemma fancy_get_in_bounds (n : nat) (M : mat) (lpos : list nat) :
  in_bounds n lpos = true ->
  fancy_get n M lpos = Ok (fun a b => M (nth a lpos O) (nth b lpos O)).
Proof. intros H. unfold fancy_get. rewrite H. reflexivity. Qed.

Lemma block_densities_Ok_inv (na nb : nat) (dma dmb : mat) (blk : block)
      (rho rhoa rhob : vec) :
  block_densities na nb dma dmb blk = Ok (rho, rhoa, rhob) ->
  in_bounds (nbf na nb) (functions_local_to_global blk) = true /\
  rho = grid_density (dm_both na dma dmb) blk /\
  rhoa = grid_density (dma_sup na dma dmb) blk /\
  rhob = grid_density (dmb_sup na dma dmb) blk.
Proof.
  unfold block_densities. intros H.
  apply bind_Ok_inv in H as (lD & HlD & H).
  apply bind_Ok_inv in H as (lDa & HlDa & H).
  apply bind_Ok_inv in H as (lDb & HlDb & H).
  apply fancy_get_Ok_inv in HlD as [Hb ->].
  apply fancy_get_Ok_inv in HlDa as [_ ->].
  apply fancy_get_Ok_inv in HlDb as [_ ->].
  injection H as <- <- <-. repeat split; assumption.
Qed.

Lemma block_densities_in_bounds (na nb : nat) (dma dmb : mat) (blk : block) :
  in_bounds (nbf na nb) (functions_local_to_global blk) = true ->
  block_densities na nb dma dmb blk
  = Ok (grid_density (dm_both na dma dmb) blk,
        grid_density (dma_sup na dma dmb) blk,
        grid_density (dmb_sup na dma dmb) blk).
Proof.
  intros H. unfold block_densities.
  rewrite !fancy_get_in_bounds by assumption. reflexivity.
Qed.

Lemma grid_density_split (na : nat) (dma dmb : mat) (blk : block) (p : nat) :
  grid_density (dm_both na dma dmb) blk p
  = grid_density (dma_sup na dma dmb) blk p
    + grid_density (dmb_sup na dma dmb) blk p.
Proof.
  unfold grid_density.
  rewrite (einsum_pm_mn_pn_ext _ _ _
             (fun a b =>
                dma_sup na dma dmb (nth a (functions_local_to_global blk) O)
                                   (nth b (functions_local_to_global blk) O)
                + dmb_sup na dma dmb (nth a (functions_local_to_global blk) O)
                                     (nth b (functions_local_to_global blk) O)))
    by (intros a b; apply dm_both_split).
  rewrite einsum_pm_mn_pn_plus. ring.
Qed.

End FdeSums.

Section FdeLoop.
Import Fde.
Local Open Scope R_scope.

Variables (xc_e xc_v : R -> R) (na nb : nat) (dma dmb : mat).

Local Abbreviation loop_body := (loop_body xc_e xc_v na nb dma dmb).
Local Abbreviation block_loop := (block_loop xc_e xc_v na nb dma dmb).

(** Every call of [compute_functional] hands out the same two vectors: the
    dictionaries [ret], [reta] and [retb] of the loop are equal. *)
Lemma compute_functional_same_vectors
      (sf sf' : superfunctional) (rho rho' : vec) (np np' : nat) :
  snd (compute_functional xc_e xc_v sf rho np)
  = snd (compute_functional xc_e xc_v sf' rho' np').
Proof. reflexivity. Qed.

(** After a call the vector under ["V"] holds the energy density of the
    density that call was given, whatever an earlier call left there. *)
Lemma compute_functional_overwrites
      (sf : superfunctional) (rho : vec) (np p : nat) :
  (p < np)%nat ->
  np_array (fst (compute_functional xc_e xc_v sf rho np)) RefV p = xc_e (rho p).
Proof.
  intros Hp. cbn -[Nat.ltb]. apply Nat.ltb_lt in Hp. rewrite Hp. reflexivity.
Qed.

(** What one iteration does to each variable of the loop. *)
Lemma loop_body_Ok_inv (st st' : loop_state) (blk : block) :
  loop_body st blk = Ok st' ->
  let np := npoints blk in
  let rho := grid_density (dm_both na dma dmb) blk in
  let rhoa := grid_density (dma_sup na dma dmb) blk in
  let rhob := grid_density (dmb_sup na dma dmb) blk in
  in_bounds (nbf na nb) (functions_local_to_global blk) = true /\
  nelec_tot st' = nelec_tot st + einsum_a_a np (w blk) rho /\
  nelec_a st' = nelec_a st + einsum_a_a np (w blk) rhoa /\
  nelec_b st' = nelec_b st + einsum_a_a np (w blk) rhob /\
  exc_tot st' = exc_tot st + einsum_a_a np (w blk) (fun p => xc_e (rho p)) /\
  exc_a st' = exc_a st + einsum_a_a np (w blk) (fun p => xc_e (rhoa p)) /\
  exc_b st' = exc_b st + einsum_a_a np (w blk) (fun p => xc_e (rhob p)) /\
  et_tot st' = et_tot st + einsum_a_a np (w blk) (fst (compute_kinetic_tf rho)) /\
  et_a st' = et_a st + einsum_a_a np (w blk) (fst (compute_kinetic_tf rhoa)) /\
  et_b st' = et_b st + einsum_a_a np (w blk) (fst (compute_kinetic_tf rhob)) /\
  (exists X : mat,
      fancy_iadd (nbf na nb) (V st) (functions_local_to_global blk)
                 (fun a b => 0.5 * (X a b + X b a)) = Ok (V st')) /\
  (exists X : mat,
      fancy_iadd (nbf na nb) (Vt st) (functions_local_to_global blk)
                 (fun a b => 0.5 * (X a b + X b a)) = Ok (Vt st')).
Proof.
  intros H np rho rhoa rhob. subst np rho rhoa rhob. unfold Fde.loop_body in H.
  apply bind_Ok_inv in H as ([[r ra] rb] & Hd & H).
  apply block_densities_Ok_inv in Hd as (Hb & -> & -> & ->).
  cbn -[Nat.ltb] in H.
  apply bind_Ok_inv in H as (V' & HV & H).
  apply bind_Ok_inv in H as (Vt' & HVt & H).
  injection H as <-. cbn -[Nat.ltb].
  split; [exact Hb |].
  repeat (split; [reflexivity || (f_equal; apply einsum_a_a_ext; intros p Hp;
                                   apply Nat.ltb_lt in Hp; rewrite Hp; reflexivity) |]).
  split; eexists; eassumption.
Qed.

End FdeLoop.

Section Scatter.
Import Fde.
Local Open Scope R_scope.

Lemma last_match_app {A : Type} (P : A -> bool) (l1 l2 : list A) :
  last_match P (l1 ++ l2)
  = match last_match P l2 with
    | Some y => Some y
    | None => last_match P l1
    end.
Proof.
  induction l1 as [| x l1 IH]; simpl.
  - destruct (last_match P l2); reflexivity.
  - rewrite IH. destruct (last_match P l2); reflexivity.
Qed.

Lemma last_match_map_pair (P Q : nat -> bool) (x : nat) (t : list nat) :
  last_match (fun ab : nat * nat => P (fst ab) && Q (snd ab)) (map (pair x) t)
  = if P x then option_map (pair x) (last_match Q t) else None.
Proof.
  induction t as [| y t IH]; simpl.
  - destruct (P x); reflexivity.
  - rewrite IH. destruct (P x); simpl.
    + destruct (last_match Q t); simpl; [reflexivity |].
      destruct (Q y); reflexivity.
    + reflexivity.
Qed.

(** In row-major order the last pair that hits cell [(i, j)] is made of the
    last row index that hits [i] and the last column index that hits [j]. *)
Lemma last_match_list_prod (P Q : nat -> bool) (s t : list nat) :
  last_match (fun ab : nat * nat => P (fst ab) && Q (snd ab)) (list_prod s t)
  = match last_match P s, last_match Q t with
    | Some a, Some b => Some (a, b)
    | _, _ => None
    end.
Proof.
  induction s as [| x s IH]; simpl.
  - reflexivity.
  - rewrite last_match_app, IH, last_match_map_pair.
    destruct (last_match P s) as [a |], (last_match Q t) as [b |], (P x);
      reflexivity.
Qed.

Lemma fold_set_cell (lpos : list nat) (T : mat) (l : list (nat * nat)) (M : mat)
      (i j : nat) :
  fold_left
    (fun M' ab => set_cell M' (nth (fst ab) lpos O) (nth (snd ab) lpos O)
                           (T (fst ab) (snd ab))) l M i j
  = match last_match
            (fun ab : nat * nat =>
               (i =? nth (fst ab) lpos O)%nat && (j =? nth (snd ab) lpos O)%nat) l
    with
    | Some ab => T (fst ab) (snd ab)
    | None => M i j
    end.
Proof.
  revert M. induction l as [| x l IH]; intros M; simpl.
  - reflexivity.
  - rewrite IH.
    destruct (last_match _ l); [reflexivity |].
    unfold set_cell.
    destruct ((i =? nth (fst x) lpos O)%nat && (j =? nth (snd x) lpos O)%nat);
      reflexivity.
Qed.

(** What [M[(lpos[:, None], lpos)] = T] leaves in cell [(i, j)]. *)
Lemma fancy_set_cell (n : nat) (M M' T : mat) (lpos : list nat) (i j : nat) :
  fancy_set n M lpos T = Ok M' ->
  M' i j
  = match last_match (fun a => (i =? nth a lpos O)%nat) (seq 0 (length lpos)),
          last_match (fun b => (j =? nth b lpos O)%nat) (seq 0 (length lpos))
    with
    | Some a, Some b => T a b
    | _, _ => M i j
    end.
Proof.
  unfold fancy_set. destruct (in_bounds n lpos); [| discriminate].
  intros H. injection H as <-.
  rewrite fold_set_cell.
  rewrite (last_match_list_prod (fun a => (i =? nth a lpos O)%nat)
                                (fun b => (j =? nth b lpos O)%nat)).
  destruct (last_match _ _) as [a |]; [| reflexivity].
  destruct (last_match _ _) as [b |]; reflexivity.
Qed.

(** Adding a symmetric block into a symmetric array keeps it symmetric. *)
Lemma fancy_iadd_symmetric (n : nat) (M M' S : mat) (lpos : list nat) :
  symmetric M -> symmetric S ->
  fancy_iadd n M lpos S = Ok M' -> symmetric M'.
Proof.
  intros HM HS H. unfold fancy_iadd in H.
  apply bind_Ok_inv in H as (cur & Hcur & H).
  apply fancy_get_Ok_inv in Hcur as [_ ->].
  intros i j.
  rewrite (fancy_set_cell _ _ _ _ _ i j H), (fancy_set_cell _ _ _ _ _ j i H).
  destruct (last_match _ _) as [a |]; destruct (last_match _ _) as [b |];
    try apply HM.
  rewrite (HM (nth a lpos O)), (HS a b). reflexivity.
Qed.

Lemma fancy_iadd_in_bounds (n : nat) (M S : mat) (lpos : list nat) :
  in_bounds n lpos = true -> exists M', fancy_iadd n M lpos S = Ok M'.
Proof.
  intros H. unfold fancy_iadd, fancy_set.
  rewrite fancy_get_in_bounds by assumption. cbn. rewrite H.
  eexists. reflexivity.
Qed.

Lemma symmetrized_symmetric (X : mat) :
  symmetric (fun a b => 0.5 * (X a b + X b a)).
Proof. intros a b. ring. Qed.

End Scatter.

Section FdeLoopFacts.
Import Fde.
Local Open Scope R_scope.

Variables (xc_e xc_v : R -> R) (na nb : nat) (dma dmb : mat).

Local Abbreviation loop_body := (loop_body xc_e xc_v na nb dma dmb).
Local Abbreviation block_loop := (block_loop xc_e xc_v na nb dma dmb).

Lemma loop_body_in_bounds (st : loop_state) (blk : block) :
  in_bounds (nbf na nb) (functions_local_to_global blk) = true ->
  exists st', loop_body st blk = Ok st'.
Proof.
  intros Hb. unfold Fde.loop_body.
  rewrite block_densities_in_bounds by assumption. cbn -[Nat.ltb].
  match goal with
  | |- context [fancy_iadd ?n ?M ?l ?S ≫= _] =>
      destruct (fancy_iadd_in_bounds n M S l Hb) as [V' ->]
  end.
  cbn -[Nat.ltb].
  match goal with
  | |- context [fancy_iadd ?n ?M ?l ?S ≫= _] =>
      destruct (fancy_iadd_in_bounds n M S l Hb) as [Vt' ->]
  end.
  cbn -[Nat.ltb]. eexists. reflexivity.
Qed.

(** The loop runs to completion on a grid whose blocks only name basis
    functions of the supersystem. *)
Lemma block_loop_in_bounds (blocks : list block) (st : loop_state) :
  Forall (fun blk => in_bounds (nbf na nb) (functions_local_to_global blk) = true)
         blocks ->
  exists st', block_loop st blocks = Ok st'.
Proof.
  revert st. induction blocks as [| blk blocks IH]; intros st Hall.
  - exists st. reflexivity.
  - inversion Hall as [| ? ? Hb Hrest]; subst.
    destruct (loop_body_in_bounds st blk Hb) as [st1 H1].
    destruct (IH st1 Hrest) as [st' H']. exists st'.
    cbn. rewrite H1. exact H'.
Qed.

Lemma block_loop_cons_inv (blk : block) (blocks : list block) (st st' : loop_state) :
  block_loop st (blk :: blocks) = Ok st' ->
  exists st1, loop_body st blk = Ok st1 /\ block_loop st1 blocks = Ok st'.
Proof. intros H. cbn in H. apply bind_Ok_inv in H. exact H. Qed.

Lemma quadrature_cons (f : R -> R) (D : mat) (blk : block) (blocks : list block) :
  quadrature f D (blk :: blocks)
  = einsum_a_a (npoints blk) (w blk) (fun p => f (grid_density D blk p))
    + quadrature f D blocks.
Proof. reflexivity. Qed.

(** Each accumulator grows by the quadrature of its own integrand. *)
Lemma block_loop_accumulates (blocks : list block) (st st' : loop_state) :
  block_loop st blocks = Ok st' ->
  let tf := fun r => cf * np_power r (5 / 3) in
  let id := fun r : R => r in
  nelec_tot st' = nelec_tot st + quadrature id (dm_both na dma dmb) blocks /\
  nelec_a st' = nelec_a st + quadrature id (dma_sup na dma dmb) blocks /\
  nelec_b st' = nelec_b st + quadrature id (dmb_sup na dma dmb) blocks /\
  exc_tot st' = exc_tot st + quadrature xc_e (dm_both na dma dmb) blocks /\
  exc_a st' = exc_a st + quadrature xc_e (dma_sup na dma dmb) blocks /\
  exc_b st' = exc_b st + quadrature xc_e (dmb_sup na dma dmb) blocks /\
  et_tot st' = et_tot st + quadrature tf (dm_both na dma dmb) blocks /\
  et_a st' = et_a st + quadrature tf (dma_sup na dma dmb) blocks /\
  et_b st' = et_b st + quadrature tf (dmb_sup na dma dmb) blocks.
Proof.
  revert st. induction blocks as [| blk blocks IH]; intros st H tf id.
  - injection H as <-. cbn. repeat split; ring.
  - apply block_loop_cons_inv in H as (st1 & H1 & H).
    apply loop_body_Ok_inv in H1
      as (_ & E1 & E2 & E3 & E4 & E5 & E6 & E7 & E8 & E9 & _).
    destruct (IH st1 H) as (F1 & F2 & F3 & F4 & F5 & F6 & F7 & F8 & F9).
    rewrite !quadrature_cons.
    rewrite F1, F2, F3, F4, F5, F6, F7, F8, F9.
    rewrite E1, E2, E3, E4, E5, E6, E7, E8, E9.
    subst tf id. cbn [fst compute_kinetic_tf]. unfold einsum_a_a. cbv beta.
    repeat split; ring.
Qed.


Lemma block_loop_symmetric (blocks : list block) (st st' : loop_state) :
  symmetric (V st) -> symmetric (Vt st) ->
  block_loop st blocks = Ok st' ->
  symmetric (V st') /\ symmetric (Vt st').
Proof.
  revert st. induction blocks as [| blk blocks IH]; intros st HV HVt H.
  - injection H as <-. split; assumption.
  - apply block_loop_cons_inv in H as (st1 & H1 & H).
    apply loop_body_Ok_inv in H1
      as (_ & _ & _ & _ & _ & _ & _ & _ & _ & _ & [X HX] & [Xt HXt]).
    apply (IH st1); [| | exact H].
    + exact (fancy_iadd_symmetric _ _ _ _ _ HV (symmetrized_symmetric X) HX).
    + exact (fancy_iadd_symmetric _ _ _ _ _ HVt (symmetrized_symmetric Xt) HXt).
Qed.

End FdeLoopFacts.

(** C1: the non-additive energies are the supersystem quadrature minus the
    two subsystem quadratures, each accumulated over all blocks from the
    weights times the energy density of that system's own density: the
    exchange-correlation functional on [rho], [rho_A], [rho_B] for
    [enad_xc], the Thomas-Fermi energy density for [enad_t]. *)
Theorem nad_energies_are_quadratures
        (xc_e xc_v : R -> R) (na nb : nat) (dma dmb : Fde.mat)
        (sf : Fde.superfunctional) (blocks : list Fde.block)
        (st : Fde.loop_state) :
  Fde.block_loop xc_e xc_v na nb dma dmb (Fde.init_state na dma dmb sf) blocks
  = Ok st ->
  let tf := fun r : R => (2.8712 * Fde.np_power r (5 / 3))%R in
  let D := Fde.dm_both na dma dmb in
  let Da := Fde.dma_sup na dma dmb in
  let Db := Fde.dmb_sup na dma dmb in
  (Fde.exc_tot st = Fde.quadrature xc_e D blocks /\
   Fde.exc_a st = Fde.quadrature xc_e Da blocks /\
   Fde.exc_b st = Fde.quadrature xc_e Db blocks /\
   Fde.et_tot st = Fde.quadrature tf D blocks /\
   Fde.et_a st = Fde.quadrature tf Da blocks /\
   Fde.et_b st = Fde.quadrature tf Db blocks /\
   Fde.enad_xc st
   = Fde.quadrature xc_e D blocks - Fde.quadrature xc_e Da blocks
     - Fde.quadrature xc_e Db blocks /\
   Fde.enad_t st
   = Fde.quadrature tf D blocks - Fde.quadrature tf Da blocks
     - Fde.quadrature tf Db blocks)%R.
Proof.
  intros H tf D Da Db.
  destruct (block_loop_accumulates _ _ _ _ _ _ _ _ _ H)
    as (_ & _ & _ & E4 & E5 & E6 & E7 & E8 & E9).
  cbn [Fde.init_state Fde.exc_tot Fde.exc_a Fde.exc_b
       Fde.et_tot Fde.et_a Fde.et_b] in E4, E5, E6, E7, E8, E9.
  unfold Fde.enad_xc, Fde.enad_t. subst tf D Da Db.
  fold Fde.cf. rewrite E4, E5, E6, E7, E8, E9.
  repeat split; ring.
Qed.

Lemma nad_energies_are_quadratures_witness :
  exists st : Fde.loop_state,
    Fde.block_loop FdeExample.xc_e FdeExample.xc_v 1 1
                   FdeExample.dma FdeExample.dmb
                   (Fde.init_state 1 FdeExample.dma FdeExample.dmb FdeExample.sf0)
                   [FdeExample.blk] = Ok st /\
    (Fde.enad_xc st
     = Fde.quadrature FdeExample.xc_e
                      (Fde.dm_both 1 FdeExample.dma FdeExample.dmb) [FdeExample.blk]
       - Fde.quadrature FdeExample.xc_e
                        (Fde.dma_sup 1 FdeExample.dma FdeExample.dmb) [FdeExample.blk]
       - Fde.quadrature FdeExample.xc_e
                        (Fde.dmb_sup 1 FdeExample.dma FdeExample.dmb) [FdeExample.blk])%R.
Proof.
  eexists. split.
  - reflexivity.
  - refine (proj1 (proj2 (proj2 (proj2 (proj2 (proj2 (proj2
             (nad_energies_are_quadratures
                FdeExample.xc_e FdeExample.xc_v 1 1 FdeExample.dma FdeExample.dmb
                FdeExample.sf0 [FdeExample.blk] _ _)))))))).
    reflexivity.
Defined.




(** C3: [V] and [Vt] start as zero matrices, every block adds a symmetrised
    contribution, and so both are symmetric after every iteration of the
    block loop. *)
Theorem potentials_symmetric_invariant
        (xc_e xc_v : R -> R) (na nb : nat) (dma dmb : Fde.mat)
        (sf : Fde.superfunctional) :
  (Fde.symmetric (Fde.V (Fde.init_state na dma dmb sf)) /\
   Fde.symmetric (Fde.Vt (Fde.init_state na dma dmb sf))) /\
  (forall st blk st',
      Fde.symmetric (Fde.V st) -> Fde.symmetric (Fde.Vt st) ->
      Fde.loop_body xc_e xc_v na nb dma dmb st blk = Ok st' ->
      Fde.symmetric (Fde.V st') /\ Fde.symmetric (Fde.Vt st')) /\
  (forall blocks st,
      Fde.block_loop xc_e xc_v na nb dma dmb (Fde.init_state na dma dmb sf) blocks
      = Ok st ->
      Fde.symmetric (Fde.V st) /\ Fde.symmetric (Fde.Vt st)).
Proof.
  assert (Hinit : Fde.symmetric (Fde.V (Fde.init_state na dma dmb sf)) /\
                  Fde.symmetric (Fde.Vt (Fde.init_state na dma dmb sf))).
  { split; intros i j; reflexivity. }
  split; [exact Hinit | split].
  - intros st blk st' HV HVt H.
    apply (block_loop_symmetric xc_e xc_v na nb dma dmb [blk] st st' HV HVt).
    cbn. rewrite H. reflexivity.
  - intros blocks st H. destruct Hinit as [HV HVt].
    exact (block_loop_symmetric _ _ _ _ _ _ _ _ _ HV HVt H).
Qed.

Lemma potentials_symmetric_invariant_witness :
  exists st : Fde.loop_state,
    Fde.block_loop FdeExample.xc_e FdeExample.xc_v 1 1
                   FdeExample.dma FdeExample.dmb
                   (Fde.init_state 1 FdeExample.dma FdeExample.dmb FdeExample.sf0)
                   [FdeExample.blk; FdeExample.blk] = Ok st /\
    Fde.symmetric (Fde.V st) /\ Fde.symmetric (Fde.Vt st).
Proof.
  eexists. split.
  - reflexivity.
  - refine (proj2 (proj2 (potentials_symmetric_invariant
                            FdeExample.xc_e FdeExample.xc_v 1 1
                            FdeExample.dma FdeExample.dmb FdeExample.sf0))
                  [FdeExample.blk; FdeExample.blk] _ _).
    reflexivity.
Defined.
Section KineticTF.
Import Fde.
Local Open Scope R_scope.

Lemma np_power_pos (x y : R) : 0 < x -> np_power x y = Rpower x y.
Proof.
  intros Hx. unfold np_power. destruct (Rlt_dec 0 x); [reflexivity | contradiction].
Qed.

Lemma np_power_zero (y : R) : np_power 0 y = 0.
Proof.
  unfold np_power. destruct (Rlt_dec 0 0) as [H | _]; [lra | reflexivity].
Qed.

Lemma np_power_nonneg (x y : R) : 0 <= np_power x y.
Proof.
  unfold np_power. destruct (Rlt_dec 0 x).
  - left. apply exp_pos.
  - lra.
Qed.



Lemma np_power_step (x y : R) : 0 <= x -> np_power x y * x = np_power x (y + 1).
Proof.
  intros [Hx | Hx].
  - rewrite !np_power_pos by assumption.
    rewrite Rpower_plus, Rpower_1 by assumption. reflexivity.
  - subst x. rewrite !np_power_zero. ring.
Qed.


End KineticTF.




(* ===================================================================== *)
(** * Facts about the molecule texts                                      *)
(* ===================================================================== *)

Section StringFacts.

Lemma string_app_assoc (a b c : string) : (a +:+ b) +:+ c = a +:+ (b +:+ c).
Proof.
  induction a as [| ch a IH].
  - reflexivity.
  - change (String ch ((a +:+ b) +:+ c) = String ch (a +:+ (b +:+ c))).
    f_equal. exact IH.
Qed.

Lemma string_app_empty_r (a : string) : a +:+ EmptyString = a.
Proof.
  induction a as [| ch a IH].
  - reflexivity.
  - change (String ch (a +:+ EmptyString) = String ch a).
    f_equal. exact IH.
Qed.

Lemma concat_empty_cons (x : string) (l : list string) :
  String.concat "" (x :: l) = x +:+ String.concat "" l.
Proof.
  destruct l as [| y l]; simpl.
  - rewrite string_app_empty_r. reflexivity.
  - reflexivity.
Qed.

(** Growing a text line by line gives the concatenation of the lines. *)
Lemma fold_left_append {A : Type} (f : A -> string) (l : list A) (acc : string) :
  fold_left (fun s a => s +:+ f a) l acc = acc +:+ String.concat "" (map f l).
Proof.
  revert acc. induction l as [| a l IH]; intros acc.
  - simpl. rewrite string_app_empty_r. reflexivity.
  - cbn [fold_left map]. rewrite IH, concat_empty_cons.
    apply string_app_assoc.
Qed.

Lemma zip_with_map_map {A B C D : Type} (f : B -> C -> D) (g : A -> B) (h : A -> C)
      (l : list A) :
  zip_with f (map g l) (map h l) = map (fun a => f (g a) (h a)) l.
Proof.
  induction l as [| a l IH]; simpl.
  - reflexivity.
  - rewrite IH. reflexivity.
Qed.

End StringFacts.

(** C7: [build_supersystem] hands psi4 the atoms of [mol1] followed by the
    atoms of [mol2], each with its own element symbol and coordinates, in a
    geometry whose charge and multiplicity line is [0 1] and whose unit is
    [au]. *)
Theorem build_supersystem_spec (str_of_float : R -> string)
        (mol1 mol2 : Supersystem.psi4_molecule) :
  Supersystem.build_supersystem str_of_float mol1 mol2
  = Ok (Supersystem.geometry_text str_of_float "0 1"
          (Supersystem.atoms mol1 ++ Supersystem.atoms mol2) "au").
Proof.
  unfold Supersystem.build_supersystem, Supersystem.to_arrays,
    Supersystem.vstack, Supersystem.np_append, Supersystem.reshape_column,
    Supersystem.hstack.
  rewrite <- !map_app.
  set (ats := Supersystem.atoms mol1 ++ Supersystem.atoms mol2).
  rewrite !length_map, Nat.eqb_refl. cbn [mbind result_bind].
  rewrite !length_map, Nat.eqb_refl. cbn [mbind result_bind mret result_ret].
  rewrite (map_map fst), zip_with_map_map.
  rewrite (fold_left_append (fun a => PyStr.join " " a +:+ PyStr.nl)).
  rewrite map_map.
  rewrite (List.map_ext _ (Supersystem.atom_line str_of_float)).
  - reflexivity.
  - intros [el [[x y] z]]. unfold Supersystem.atom_line, PyStr.join.
    cbn [fst snd map app String.concat].
    rewrite !string_app_assoc. reflexivity.
Qed.

Section PyscfMoleculeFacts.
Import PyStr PyscfMolecule.

Lemma count_short (lines : list string) (n : nat) :
  fold_left (fun count line => if short_line line then S count else count) lines n
  = n + length (List.filter short_line lines).
Proof.
  revert n. induction lines as [| l lines IH]; intros n; simpl.
  - lia.
  - rewrite IH. destruct (short_line l); simpl; lia.
Qed.

Lemma filter_all {A : Type} (P : A -> bool) (l : list A) :
  forallb P l = true -> List.filter P l = l.
Proof.
  induction l as [| a l IH]; simpl; intros H.
  - reflexivity.
  - apply andb_prop in H as [Ha Hl]. rewrite Ha, IH by assumption. reflexivity.
Qed.

Lemma filter_none {A : Type} (P : A -> bool) (l : list A) :
  forallb (fun a => negb (P a)) l = true -> List.filter P l = [].
Proof.
  induction l as [| a l IH]; simpl; intros H.
  - reflexivity.
  - apply andb_prop in H as [Ha Hl]. apply negb_true_iff in Ha.
    rewrite Ha. apply IH. assumption.
Qed.

Lemma filter_length_le {A : Type} (P : A -> bool) (l : list A) :
  length (List.filter P l) <= length l.
Proof.
  induction l as [| a l IH]; simpl.
  - lia.
  - destruct (P a); simpl; lia.
Qed.

Lemma filter_full_length {A : Type} (P : A -> bool) (l : list A) :
  length (List.filter P l) = length l -> forallb P l = true.
Proof.
  induction l as [| a l IH]; simpl; intros H.
  - reflexivity.
  - pose proof (filter_length_le P l) as Hle.
    destruct (P a); simpl in *.
    + apply IH. lia.
    + lia.
Qed.

Lemma forallb_filter {A : Type} (P : A -> bool) (l : list A) :
  forallb P (List.filter P l) = true.
Proof.
  induction l as [| a l IH]; simpl.
  - reflexivity.
  - destruct (P a) eqn:E; simpl; [rewrite E |]; exact IH.
Qed.

(** Dropping as many lines as there are short ones keeps exactly the long
    lines when the short lines come first. *)
Lemma drop_count_header_first (lines : list string) :
  header_first lines ->
  drop (length (List.filter short_line lines)) lines
  = List.filter (fun l => negb (short_line l)) lines.
Proof.
  intros (header & body & -> & Hh & Hb).
  rewrite !List.filter_app.
  rewrite (filter_all _ _ Hh), (filter_none _ _ Hb), app_nil_r.
  rewrite drop_app_length.
  rewrite (filter_none (fun l => negb (short_line l)) header).
  - rewrite (filter_all _ _ Hb). reflexivity.
  - clear -Hh. induction header as [| l header IH]; simpl in *.
    + reflexivity.
    + apply andb_prop in Hh as [Hl Hh]. rewrite Hl. simpl. apply IH, Hh.
Qed.

(** ... and only then. *)
Lemma drop_count_only_header_first (lines : list string) :
  drop (length (List.filter short_line lines)) lines
  = List.filter (fun l => negb (short_line l)) lines ->
  header_first lines.
Proof.
  intros H.
  set (count := length (List.filter short_line lines)) in *.
  exists (take count lines), (drop count lines).
  split; [symmetry; apply take_drop |].
  assert (Hb : forallb (fun l => negb (short_line l)) (drop count lines) = true).
  { rewrite H. apply forallb_filter. }
  split; [| exact Hb].
  apply filter_full_length.
  assert (Hsplit : length (List.filter short_line lines)
                   = length (List.filter short_line (take count lines))
                     + length (List.filter short_line (drop count lines))).
  { rewrite <- (take_drop count lines) at 1.
    rewrite List.filter_app, length_app. reflexivity. }
  rewrite (filter_none _ _ Hb) in Hsplit. simpl in Hsplit.
  rewrite length_take.
  pose proof (filter_length_le short_line lines). fold count in Hsplit. lia.
Qed.

End PyscfMoleculeFacts.

(** What the code does on a text with a short line after an atom line: it
    drops as many lines from the front as there are short lines. *)
Remark get_pyscf_molecule_counts_not_filters :
  PyscfMolecule.get_pyscf_molecule
    {| PyscfMolecule.molecular_multiplicity := Some 1%Z;
       PyscfMolecule.to_string_xyz := "H 0 0 0" +:+ PyStr.nl +:+ "x" |} "sto-3g"
  = Ok {| PyscfMolecule.atom := "x"; PyscfMolecule.basis := "sto-3g";
          PyscfMolecule.spin := 0%Z |}.
Proof. reflexivity. Qed.

(** C6: [get_pyscf_molecule] raises AttributeError on an object without
    [molecular_multiplicity]; otherwise, on an XYZ text whose lines of fewer
    than four fields come first, it calls [gto.M] with the lines of at least
    four single-space-separated fields, in their order and joined by
    newlines, and with [spin = molecular_multiplicity - 1]. *)
Theorem get_pyscf_molecule_spec (mol : PyscfMolecule.molecule) (basis : string) :
  (PyscfMolecule.molecular_multiplicity mol = None ->
   PyscfMolecule.get_pyscf_molecule mol basis = Raise AttributeError) /\
  (forall m : Z,
      PyscfMolecule.molecular_multiplicity mol = Some m ->
      PyscfMolecule.header_first (PyStr.splitlines (PyscfMolecule.to_string_xyz mol)) ->
      PyscfMolecule.get_pyscf_molecule mol basis
      = Ok {| PyscfMolecule.atom :=
                PyStr.join PyStr.nl
                  (List.filter (fun l => 4 <=? length (PyStr.split " " l))
                               (PyStr.splitlines (PyscfMolecule.to_string_xyz mol)));
              PyscfMolecule.basis := basis;
              PyscfMolecule.spin := (m - 1)%Z |}).
Proof.
  unfold PyscfMolecule.get_pyscf_molecule. split.
  - intros ->. reflexivity.
  - intros m -> Hhf. rewrite count_short. cbn [Nat.add].
    rewrite (drop_count_header_first _ Hhf).
    do 3 f_equal. apply List.filter_ext. intros l.
    unfold PyscfMolecule.short_line.
    destruct (Nat.ltb_spec (length (PyStr.split " " l)) 4);
      destruct (Nat.leb_spec 4 (length (PyStr.split " " l))); simpl; (reflexivity || lia).
Qed.

Lemma get_pyscf_molecule_spec_witness :
  PyscfMolecule.get_pyscf_molecule
    {| PyscfMolecule.molecular_multiplicity := Some 1%Z;
       PyscfMolecule.to_string_xyz :=
         "2" +:+ PyStr.nl +:+ "0 1 CO" +:+ PyStr.nl
             +:+ "C  -3.6  1.3  -0.02" +:+ PyStr.nl
             +:+ "O  -4.7  1.5  0.11" +:+ PyStr.nl |}
    "sto-3g"
  = Ok {| PyscfMolecule.atom :=
            "C  -3.6  1.3  -0.02" +:+ PyStr.nl +:+ "O  -4.7  1.5  0.11";
          PyscfMolecule.basis := "sto-3g";
          PyscfMolecule.spin := 0%Z |}.
Proof.
  refine (proj2 (get_pyscf_molecule_spec _ "sto-3g") 1%Z _ _).
  - reflexivity.
  - exists ["2"; "0 1 CO"], ["C  -3.6  1.3  -0.02"; "O  -4.7  1.5  0.11"].
    repeat split; reflexivity.
Defined.

(* ===================================================================== *)
(** * Facts about the SCF method objects                                  *)
(* ===================================================================== *)

Section ScfOptions.
Import Scf.

(** The loop over the keywords only looks at the values. *)
Lemma solve_scf_options_names (kw kw' : list (string * pyval)) :
  map snd kw = map snd kw' -> solve_scf_options kw = solve_scf_options kw'.
Proof.
  revert kw'. induction kw as [| [k v] kw IH]; intros [| [k' v'] kw'] H;
    try discriminate H.
  - reflexivity.
  - cbn in H. injection H as <- H. cbn [solve_scf_options].
    rewrite (IH kw' H). reflexivity.
Qed.

(** The keyword names never reach the solver: two calls of [solve_scf]
    whose values agree do the same, whatever the keywords are called. *)
Lemma solve_scf_names_ignored
      (pyscf_class_attr : solver_class -> string -> option pyval)
      (pyscf_kernel : pyobject -> heap -> result (gmap string pyval))
      (pyscf_make_rdm1 : pyobject -> result ndarray)
      (kw kw' : list (string * pyval)) :
  map snd kw = map snd kw' ->
  solve_scf pyscf_class_attr pyscf_kernel pyscf_make_rdm1 kw
  = solve_scf pyscf_class_attr pyscf_kernel pyscf_make_rdm1 kw'.
Proof.
  intros H. unfold solve_scf. rewrite (solve_scf_options_names kw kw' H).
  reflexivity.
Qed.

End ScfOptions.

Lemma example_instance_constructed :
  Scf.ScfPyScf_init ScfExample.pyscf_init ScfExample.co "sto-3g" "hf" None
                    ScfExample.empty_heap
  = Ok ScfExample.w0.
Proof. vm_compute. reflexivity. Qed.

(** C5, at [solve_scf(conv_tol=1e-12)] on a fresh restricted Hartree-Fock
    instance: after the keyword loop the solver's [conv_tol] is still the
    constructor's [1e-9], and the value sits under the attribute called
    [attr]. *)
Theorem solve_scf_conv_tol_not_set :
  let w := fst (Scf.solve_scf_options
                  [("conv_tol", Scf.PyFloat Scf.conv_tol_1e_12)] ScfExample.w0) in
  exists o : Scf.pyobject,
    Scf.objects (Scf.store w) !! Scf.scf_object (Scf.self w) = Some o /\
    Scf.dict o !! "conv_tol" = Some (Scf.PyFloat ScfExample.conv_tol_default) /\
    Scf.dict o !! "attr" = Some (Scf.PyFloat Scf.conv_tol_1e_12).
Proof.
  eexists. split; [vm_compute; reflexivity |].
  split; vm_compute; reflexivity.
Qed.

Section ScfCaching.
Import Scf.

Variable np_ne_empty_list : ndarray -> result bool.
Variable solve : list (string * pyval) -> M unit.

Lemma get_density_cached (w : world) (l : list pyval) :
  density (self w) = PyList l -> l <> [] ->
  get_density np_ne_empty_list solve w = (w, Ok (PyList l)).
Proof.
  intros Hd Hl. unfold get_density, mbind, M_bind, get_self. cbn.
  rewrite Hd. cbn.
  destruct l as [| x l]; [contradiction |]. reflexivity.
Qed.

Lemma get_energy_cached (w : world) (e : float) :
  energy (self w) !! "scf" = Some (PyFloat e) ->
  PrimFloat.eqb e 0%float = false ->
  get_energy solve w = (w, Ok (PyFloat e)).
Proof.
  intros He Hz. unfold get_energy, energy_scf, mbind, M_bind, get_self. cbn.
  rewrite He. cbn. rewrite Hz. cbn. rewrite He. reflexivity.
Qed.

Lemma get_energy_zero_reruns (w : world) (e : float) :
  energy (self w) !! "scf" = Some (PyFloat e) ->
  PrimFloat.eqb e 0%float = true ->
  get_energy solve w
  = (solve [("conv_tol", PyFloat conv_tol_1e_12)];; energy_scf) w.
Proof.
  intros He Hz. unfold get_energy, mbind at 1 2, M_bind at 1 2, get_self. cbn.
  rewrite He. cbn. rewrite Hz. reflexivity.
Qed.

Lemma get_energy_missing_reruns (w : world) :
  energy (self w) !! "scf" = None ->
  get_energy solve w
  = (solve [("conv_tol", PyFloat conv_tol_1e_12)];; energy_scf) w.
Proof.
  intros He. unfold get_energy, mbind at 1 2, M_bind at 1 2, get_self. cbn.
  rewrite He. reflexivity.
Qed.

(** On a stored array the test [self.density != []] is numpy's. *)
Lemma get_density_on_array (w : world) (a : loc) (arr : ndarray) :
  density (self w) = PyNdarray a ->
  arrays (store w) !! a = Some arr ->
  get_density np_ne_empty_list solve w
  = match np_ne_empty_list arr with
    | Ok true => (w, Ok (PyNdarray a))
    | Ok false =>
        (solve [("conv_tol", PyFloat conv_tol_1e_12)];;
         s ← get_self; mret (density s)) w
    | Raise e => (w, Raise e)
    end.
Proof.
  intros Hd Ha.
  unfold get_density, ne_empty_list, read_array, get_store, lift, get_self,
    raise, mbind, M_bind, mret, M_ret.
  cbn. rewrite Hd. cbn. rewrite Ha. cbn.
  destruct (np_ne_empty_list arr) as [[] | e]; reflexivity.
Qed.

End ScfCaching.

(** On values that are lists and floats the two getters differ as follows:
    [get_density] returns the stored density whenever the density
    list is non-empty, without running the solver; [get_energy] returns the
    stored energy only when [energy["scf"]] is present and nonzero, and on a
    stored energy of exactly zero (as on a missing one) it runs
    [solve_scf(conv_tol=1e-12)] and returns what [energy["scf"]] holds
    afterwards. *)
Lemma scf_caching_asymmetric
        (np_ne_empty_list : Scf.ndarray -> result bool)
        (solve : list (string * Scf.pyval) -> Scf.M unit) (w : Scf.world) :
  (forall l, Scf.density (Scf.self w) = Scf.PyList l -> l <> [] ->
             Scf.get_density np_ne_empty_list solve w = (w, Ok (Scf.PyList l))) /\
  (forall e, Scf.energy (Scf.self w) !! "scf" = Some (Scf.PyFloat e) ->
             PrimFloat.eqb e 0%float = false ->
             Scf.get_energy solve w = (w, Ok (Scf.PyFloat e))) /\
  (forall e, Scf.energy (Scf.self w) !! "scf" = Some (Scf.PyFloat e) ->
             PrimFloat.eqb e 0%float = true ->
             Scf.get_energy solve w
             = (solve [("conv_tol", Scf.PyFloat Scf.conv_tol_1e_12)];;
                Scf.energy_scf) w) /\
  (Scf.energy (Scf.self w) !! "scf" = None ->
   Scf.get_energy solve w
   = (solve [("conv_tol", Scf.PyFloat Scf.conv_tol_1e_12)];; Scf.energy_scf) w).
Proof.
  split; [| split; [| split]].
  - intros l. apply get_density_cached.
  - intros e. apply get_energy_cached.
  - intros e. apply get_energy_zero_reruns.
  - apply get_energy_missing_reruns.
Qed.

Lemma scf_caching_asymmetric_witness :
  let solve := Scf.solve_scf ScfExample.pyscf_class_attr ScfExample.pyscf_kernel
                             ScfExample.pyscf_make_rdm1 in
  Scf.get_energy solve ScfExample.w_zero_energy
  = (solve [("conv_tol", Scf.PyFloat Scf.conv_tol_1e_12)];; Scf.energy_scf)
      ScfExample.w_zero_energy
  /\ snd (Scf.get_energy solve ScfExample.w_zero_energy)
     = Ok (Scf.PyFloat (-1.5)%float).
Proof.
  intros solve. split.
  - refine (proj1 (proj2 (proj2 (scf_caching_asymmetric
                                   ScfExample.np_ne_empty_list solve
                                   ScfExample.w_zero_energy)))
                  0%float _ _).
    + reflexivity.
    + reflexivity.
  - vm_compute. reflexivity.
Defined.

(** C10, at two calls of [get_density] on a fresh restricted Hartree-Fock
    instance whose density matrix has two rows and columns: the first call
    runs [solve_scf(conv_tol=1e-12)] and returns the density, which is now the
    array of [make_rdm1]; the second call does not return that stored
    density: the test [self.density != []] compares an array with a list and
    raises a ValueError.  [get_energy] on the same instance returns the
    stored energy without running the solver. *)
Theorem get_density_raises_on_stored_array :
  let solve := Scf.solve_scf ScfExample.pyscf_class_attr ScfExample.pyscf_kernel
                             ScfExample.pyscf_make_rdm1_two in
  exists (w1 : Scf.world) (r : Scf.loc),
    Scf.get_density ScfExample.np_ne_empty_list solve ScfExample.w0
    = (w1, Ok (Scf.PyNdarray r)) /\
    Scf.density (Scf.self w1) = Scf.PyNdarray r /\
    Scf.arrays (Scf.store w1) !! r = Some ScfExample.rdm1 /\
    Scf.get_density ScfExample.np_ne_empty_list solve w1 = (w1, Raise ValueError) /\
    Scf.get_energy solve w1 = (w1, Ok (Scf.PyFloat (-1.5)%float)).
Proof.
  intros solve. eexists. exists 0.
  split; [vm_compute; reflexivity |].
  split; [reflexivity |]. split; [reflexivity |].
  split.
  - erewrite get_density_on_array; [| reflexivity | reflexivity].
    reflexivity.
  - apply get_energy_cached; reflexivity.
Qed.

Section ScfPerturb.
Import Scf.

Variable pyscf_get_hcore : pyobject -> list pyval -> result ndarray.

Local Abbreviation call_get_hcore := (call_get_hcore pyscf_get_hcore).
Local Abbreviation perturb_fock := (perturb_fock pyscf_get_hcore).

Ltac run_M :=
  unfold setattr, copy;
  unfold read_object, read_array, write_array, alloc_array;
  unfold get_self, set_self, get_store, set_store, raise, lift,
    mbind, M_bind, mret, M_ret;
  cbn.

(** A successful [get_hcore] leaves the instance and the solver objects
    alone and at most adds one fresh array. *)
Lemma call_get_hcore_Ok_inv (l : loc) (args : list pyval) (w w1 : world) (v : pyval) :
  call_get_hcore l args w = (w1, Ok v) ->
  exists o, objects (store w) !! l = Some o /\
            self w1 = self w /\
            objects (store w1) = objects (store w) /\
            (arrays (store w1) = arrays (store w) \/
             exists a, arrays (store w1) = arrays (store w) ++ [a]).
Proof.
  unfold Scf.call_get_hcore. run_M.
  destruct (objects (store w) !! l) as [o |] eqn:Ho; cbn; [| discriminate].
  intros H. exists o. split; [reflexivity |].
  destruct (dict o !! "get_hcore") as [[] |]; cbn in H; try discriminate H.
  - injection H as <- _. destruct w as [s [ar ob]]. cbn. auto.
  - destruct (pyscf_get_hcore o args) as [a |]; cbn in H; [| discriminate H].
    injection H as <- _. cbn. eauto.
Qed.

(** Once [get_hcore] is the lambda over [p], every call returns [p]. *)
Lemma call_get_hcore_lambda (l p : loc) (args : list pyval) (w : world) (o : pyobject) :
  objects (store w) !! l = Some o ->
  dict o !! "get_hcore" = Some (PyLambdaConst p) ->
  call_get_hcore l args w = (w, Ok (PyNdarray p)).
Proof.
  intros Ho Hd. unfold Scf.call_get_hcore. run_M.
  rewrite Ho. cbn. rewrite Hd. cbn. destruct w as [s [ar ob]]. reflexivity.
Qed.

(** Without an instance attribute [get_hcore] the call goes to the method
    of the class. *)
Lemma call_get_hcore_method (l : loc) (args : list pyval) (w : world) (o : pyobject) :
  objects (store w) !! l = Some o ->
  dict o !! "get_hcore" = None ->
  call_get_hcore l args w
  = (a ← lift (pyscf_get_hcore o args); r ← alloc_array a; mret (PyNdarray r)) w.
Proof.
  intros Ho Hd. unfold Scf.call_get_hcore. run_M.
  rewrite Ho. cbn. rewrite Hd. reflexivity.
Qed.

Lemma perturb_fock_not_ndarray (pot : pyval) (w : world) :
  (forall p, pot <> PyNdarray p) -> perturb_fock pot w = (w, Raise TypeError).
Proof.
  intros H. destruct pot; try reflexivity. exfalso. exact (H a eq_refl).
Qed.

Lemma perturb_fock_Ok (w w1 : world) (p r : loc) (P H : ndarray) :
  arrays (store w) !! p = Some P ->
  call_get_hcore (scf_object (self w)) [] w = (w1, Ok (PyNdarray r)) ->
  arrays (store w1) !! r = Some H ->
  rows H = rows P -> cols H = cols P ->
  exists (w' : world) (P' : ndarray),
    perturb_fock (PyNdarray p) w = (w', Ok tt) /\
    arrays (store w') !! p = Some P' /\
    rows P' = rows P /\ cols P' = cols P /\
    (forall i j, data P' i j = (data P i j + data H i j)%R) /\
    self w' = self w /\
    (forall args,
        call_get_hcore (scf_object (self w')) args w' = (w', Ok (PyNdarray p))).
Proof.
  intros HP Hcall HH Hr Hc.
  destruct (call_get_hcore_Ok_inv _ _ _ _ _ Hcall) as (o & Ho & Hs & Hob & Har).
  assert (HP1 : arrays (store w1) !! p = Some P).
  { destruct Har as [-> | [a ->]]; [exact HP |].
    rewrite lookup_app_l; [exact HP |]. eapply lookup_lt_Some, HP. }
  set (P' := {| rows := rows P; cols := cols P;
                data := fun i j => (data P i j + data H i j)%R |}).
  set (o' := {| cls := cls o;
                dict := <["get_hcore" := PyLambdaConst p]> (dict o) |}).
  set (w' := {| self := self w1;
                store := {| arrays := <[p := P']> (arrays (store w1));
                            objects := <[scf_object (self w1) := o']>
                                         (objects (store w1)) |} |}).
  assert (Hrun : perturb_fock (PyNdarray p) w = (w', Ok tt)).
  { unfold Scf.perturb_fock. unfold mbind at 1, M_bind at 1, get_self at 1.
    cbv beta iota. unfold mbind at 1, M_bind at 1. cbv beta.
    rewrite Hcall. run_M. rewrite HP1. cbn. rewrite HH. cbn.
    unfold np_iadd. rewrite Hr, Hc, !Nat.eqb_refl. cbn.
    run_M. rewrite <- Hob, <- Hs in Ho. rewrite Ho. cbn. reflexivity. }
  exists w', P'. split; [exact Hrun |].
  assert (Hlp : p < length (arrays (store w1))) by (eapply lookup_lt_Some, HP1).
  assert (Hlo : scf_object (self w1) < length (objects (store w1))).
  { eapply lookup_lt_Some. rewrite Hob, Hs. exact Ho. }
  split; [apply list_lookup_insert_eq; exact Hlp |].
  split; [reflexivity |]. split; [reflexivity |]. split; [reflexivity |].
  split; [exact Hs |].
  intros args. apply (call_get_hcore_lambda _ _ _ _ o').
  - cbn. apply list_lookup_insert_eq. exact Hlo.
  - apply lookup_insert_eq.
Qed.

End ScfPerturb.

(** C8: [perturb_fock(pot)] adds the solver's core Hamiltonian into the
    caller's array in place, and from then on the solver's [get_hcore]
    returns that very array for any arguments; an argument that is not an
    ndarray raises TypeError and leaves everything as it was. *)
Theorem perturb_fock_in_place
        (pyscf_get_hcore : Scf.pyobject -> list Scf.pyval -> result Scf.ndarray)
        (w : Scf.world) :
  (forall (p r : Scf.loc) (P H : Scf.ndarray) (w1 : Scf.world),
      Scf.arrays (Scf.store w) !! p = Some P ->
      Scf.call_get_hcore pyscf_get_hcore (Scf.scf_object (Scf.self w)) [] w
      = (w1, Ok (Scf.PyNdarray r)) ->
      Scf.arrays (Scf.store w1) !! r = Some H ->
      Scf.rows H = Scf.rows P -> Scf.cols H = Scf.cols P ->
      exists (w' : Scf.world) (P' : Scf.ndarray),
        Scf.perturb_fock pyscf_get_hcore (Scf.PyNdarray p) w = (w', Ok tt) /\
        Scf.arrays (Scf.store w') !! p = Some P' /\
        Scf.rows P' = Scf.rows P /\ Scf.cols P' = Scf.cols P /\
        (forall i j, Scf.data P' i j = (Scf.data P i j + Scf.data H i j)%R) /\
        (forall args,
            Scf.call_get_hcore pyscf_get_hcore (Scf.scf_object (Scf.self w')) args w'
            = (w', Ok (Scf.PyNdarray p)))) /\
  (forall pot : Scf.pyval,
      (forall p, pot <> Scf.PyNdarray p) ->
      Scf.perturb_fock pyscf_get_hcore pot w = (w, Raise TypeError)).
Proof.
  split.
  - intros p r P H w1 HP Hcall HH Hr Hc.
    destruct (perturb_fock_Ok pyscf_get_hcore w w1 p r P H HP Hcall HH Hr Hc)
      as (w' & P' & H1 & H2 & H3 & H4 & H5 & _ & H6).
    exists w', P'. repeat split; assumption.
  - intros pot. apply perturb_fock_not_ndarray.
Qed.

Lemma perturb_fock_in_place_witness :
  exists (w' : Scf.world) (P' : Scf.ndarray),
    Scf.perturb_fock ScfExample.pyscf_get_hcore (Scf.PyNdarray 0) ScfExample.w_pot
    = (w', Ok tt) /\
    Scf.arrays (Scf.store w') !! 0 = Some P' /\
    Scf.data P' 0 0 = (5 + 2)%R /\
    Scf.call_get_hcore ScfExample.pyscf_get_hcore (Scf.scf_object (Scf.self w'))
                       [Scf.PyNone] w'
    = (w', Ok (Scf.PyNdarray 0)).
Proof.
  destruct (proj1 (perturb_fock_in_place ScfExample.pyscf_get_hcore ScfExample.w_pot)
                  0 1 ScfExample.pot ScfExample.hcore
                  {| Scf.self := Scf.self ScfExample.w_pot;
                     Scf.store :=
                       {| Scf.arrays := [ScfExample.pot; ScfExample.hcore];
                          Scf.objects := Scf.objects (Scf.store ScfExample.w_pot) |} |})
    as (w' & P' & H1 & H2 & _ & _ & H3 & H4).
  - reflexivity.
  - vm_compute. reflexivity.
  - reflexivity.
  - reflexivity.
  - reflexivity.
  - exists w', P'. split; [exact H1 |]. split; [exact H2 |].
    split; [apply H3 | apply H4].
Defined.

Section ScfRestore.
Import Scf.

Variable pyscf_init : solver_class -> PyscfMolecule.pyscf_mol -> gmap string pyval.
Variable pyscf_get_hcore : pyobject -> list pyval -> result ndarray.

Local Abbreviation call_get_hcore := (call_get_hcore pyscf_get_hcore).
Local Abbreviation perturb_fock := (perturb_fock pyscf_get_hcore).

Ltac run_M :=
  unfold setattr, copy;
  unfold read_object, read_array, write_array, alloc_array;
  unfold get_self, set_self, get_store, set_store, raise, lift,
    mbind, M_bind, mret, M_ret;
  cbn.

Lemma frame_refl (w : world) : frame w w.
Proof. repeat split. Qed.

Ltac case_inner :=
  match goal with
  | |- context [match ?x with _ => _ end] =>
      lazymatch x with
      | context [match _ with _ => _ end] => fail
      | _ => destruct x eqn:?
      end
  end.

Lemma call_get_hcore_frame (l : loc) (args : list pyval) (w : world) :
  self (fst (call_get_hcore l args w)) = self w /\
  objects (store (fst (call_get_hcore l args w))) = objects (store w).
Proof.
  unfold Scf.call_get_hcore. run_M.
  repeat (case_inner; cbn); split; reflexivity.
Qed.

Lemma perturb_fock_frame (pot : pyval) (w : world) :
  frame w (fst (perturb_fock pot w)).
Proof.
  destruct pot; try apply frame_refl.
  unfold Scf.perturb_fock. unfold mbind at 1, M_bind at 1, get_self at 1.
  cbv beta iota. unfold mbind at 1, M_bind at 1. cbv beta.
  destruct (call_get_hcore_frame (scf_object (self w)) [] w) as [Hs Ho].
  destruct (call_get_hcore (scf_object (self w)) [] w) as [w1 [v | e]];
    cbn [fst] in Hs, Ho.
  - assert (Hw1 : frame w w1).
    { split; [exact Hs |]. split; [rewrite Ho; reflexivity |].
      intros k _. rewrite Ho. reflexivity. }
    destruct v; try exact Hw1.
    run_M. repeat (case_inner; cbn); try exact Hw1.
    all: split; [exact Hs |]; cbn; rewrite ?length_insert, ?Ho, ?Hs.
    all: split; [reflexivity |]; intros k Hk.
    all: rewrite ?list_lookup_insert_ne
           by (intros E; apply Hk; symmetry; exact E).
    all: reflexivity.
  - split; [exact Hs |]. cbn. rewrite Ho. split; [reflexivity |].
    intros k _. reflexivity.
Qed.

Lemma frame_trans (w w' w'' : world) : frame w w' -> frame w' w'' -> frame w w''.
Proof.
  intros (Hs & Hl & Hk) (Hs' & Hl' & Hk').
  split; [congruence |]. split; [congruence |].
  intros k Hne. rewrite Hk' by (rewrite Hs; exact Hne). apply Hk, Hne.
Qed.

Lemma perturb_fock_calls_frame (pots : list pyval) (w : world) :
  frame w (perturb_fock_calls pyscf_get_hcore pots w).
Proof.
  revert w. induction pots as [| pot pots IH]; intros w.
  - apply frame_refl.
  - cbn. eapply frame_trans; [apply perturb_fock_frame | apply IH].
Qed.

(** What the constructor leaves behind: the solver and, right after it, the
    clean copy with the same class and entries. *)
Lemma ScfPyScf_init_Ok_inv (m : PyscfMolecule.molecule) (basis method : string)
      (xc_code : option string) (h : heap) (w0 : world) :
  ScfPyScf_init pyscf_init m basis method xc_code h = Ok w0 ->
  exists o0 : pyobject,
    scf_object (self w0) = length (objects h) /\
    _scf_object (self w0) = S (length (objects h)) /\
    objects (store w0) = (objects h ++ [o0]) ++ [o0].
Proof.
  unfold ScfPyScf_init. intros H.
  apply bind_Ok_inv in H as (mp & _ & H).
  destruct (restricted _); [| discriminate H].
  apply bind_Ok_inv in H as (o & _ & H).
  injection H as <-. exists o. repeat split.
Qed.

Lemma restore_scf_object_Ok (w : world) (o : pyobject) :
  objects (store w) !! _scf_object (self w) = Some o ->
  exists w2,
    restore_scf_object w = (w2, Ok tt) /\
    scf_object (self w2) = length (objects (store w)) /\
    _scf_object (self w2) = _scf_object (self w) /\
    objects (store w2) = objects (store w) ++ [o] /\
    arrays (store w2) = arrays (store w).
Proof.
  intros Ho. unfold restore_scf_object. run_M. rewrite Ho. cbn.
  eexists. repeat split.
Qed.

Lemma frame_keeps (w w' : world) : frame w w' -> ScfCalls.keeps w w'.
Proof.
  intros (Hs & Hl & Hk). split; [rewrite Hs; reflexivity |].
  split; [rewrite Hs; reflexivity |]. split; [exact Hl | exact Hk].
Qed.

(** A call that writes to no solver but the one in use leaves the clean
    copy intact. *)
Lemma keeps_clean_copy (o0 : pyobject) (w w' : world) :
  ScfCalls.keeps w w' -> ScfCalls.clean_copy_is o0 w -> ScfCalls.clean_copy_is o0 w'.
Proof.
  intros (H1 & H2 & _ & H4) [Ho Hne]. split.
  - rewrite H1. rewrite H4 by (intros E; apply Hne; symmetry; exact E). exact Ho.
  - rewrite H1, H2. exact Hne.
Qed.

(** [restore_scf_object] on an intact clean copy: the solver in use becomes
    a new object with the entries of the clean copy, which stays intact. *)
Lemma restore_clean_copy (o0 : pyobject) (w : world) :
  ScfCalls.clean_copy_is o0 w ->
  exists w2,
    restore_scf_object w = (w2, Ok tt) /\
    objects (store w2) !! scf_object (self w2) = Some o0 /\
    arrays (store w2) = arrays (store w) /\
    ScfCalls.clean_copy_is o0 w2 /\
    objects (store w) !! scf_object (self w2) = None.
Proof.
  intros [Ho Hne].
  destruct (restore_scf_object_Ok w o0 Ho) as (w2 & Hrun & Hl & Hc & Hob & Har).
  assert (Hlt : _scf_object (self w) < length (objects (store w)))
    by (eapply lookup_lt_Some, Ho).
  exists w2. split; [exact Hrun |].
  split; [rewrite Hob, Hl; apply list_lookup_middle; reflexivity |].
  split; [exact Har |].
  split; [split |].
  - rewrite Hob, Hc. rewrite lookup_app_l by exact Hlt. exact Ho.
  - rewrite Hl, Hc. lia.
  - rewrite Hl. apply lookup_ge_None_2. lia.
Qed.

End ScfRestore.

(** C9: the constructor keeps a clean copy of the solver, an object of its
    own beside the solver in use, with the same class and entries.  From
    every state of an instance in which that copy is intact, after any
    sequence of [perturb_fock] calls, failed ones included,
    [restore_scf_object] goes through and makes [scf_object] a new solver
    object (neither the clean copy nor any object that was there before)
    with the class and the entries (the attributes and what they are bound
    to) of construction time; no array is touched
    and the clean copy is intact again, so that the round trip can be made
    as often as wanted.  The [get_hcore] of the restored solver is the method
    of the class again, not the lambda over a perturbed potential. *)
Theorem restore_scf_object_roundtrip
        (pyscf_init : Scf.solver_class -> PyscfMolecule.pyscf_mol ->
                      gmap string Scf.pyval)
        (pyscf_get_hcore : Scf.pyobject -> list Scf.pyval -> result Scf.ndarray) :
  (forall (m : PyscfMolecule.molecule) (basis method : string)
          (xc_code : option string) (h : Scf.heap) (w0 : Scf.world),
      Scf.ScfPyScf_init pyscf_init m basis method xc_code h = Ok w0 ->
      exists o0 : Scf.pyobject,
        Scf.objects (Scf.store w0) !! Scf.scf_object (Scf.self w0) = Some o0 /\
        ScfCalls.clean_copy_is o0 w0) /\
  (forall (o0 : Scf.pyobject) (w : Scf.world) (pots : list Scf.pyval),
      ScfCalls.clean_copy_is o0 w ->
      let w1 := Scf.perturb_fock_calls pyscf_get_hcore pots w in
      exists w2 : Scf.world,
        Scf.restore_scf_object w1 = (w2, Ok tt) /\
        Scf.objects (Scf.store w2) !! Scf.scf_object (Scf.self w2) = Some o0 /\
        Scf.objects (Scf.store w1) !! Scf.scf_object (Scf.self w2) = None /\
        Scf.scf_object (Scf.self w2) <> Scf._scf_object (Scf.self w2) /\
        Scf._scf_object (Scf.self w2) = Scf._scf_object (Scf.self w) /\
        Scf.arrays (Scf.store w2) = Scf.arrays (Scf.store w1) /\
        ScfCalls.clean_copy_is o0 w2 /\
        (forall args,
            Scf.dict o0 !! "get_hcore" = None ->
            Scf.call_get_hcore pyscf_get_hcore (Scf.scf_object (Scf.self w2)) args w2
            = (a ← Scf.lift (pyscf_get_hcore o0 args);
               r ← Scf.alloc_array a;
               mret (Scf.PyNdarray r)) w2)).
Proof.
  split.
  - intros m basis method xc_code h w0 Hinit.
    destruct (ScfPyScf_init_Ok_inv pyscf_init _ _ _ _ _ _ Hinit)
      as (o0 & Hl & Hl' & Hobj).
    exists o0. split; [| split].
    + rewrite Hobj, Hl. rewrite lookup_app_l by (rewrite length_app; cbn; lia).
      apply list_lookup_middle. reflexivity.
    + rewrite Hobj, Hl'. apply list_lookup_middle. rewrite length_app. cbn. lia.
    + rewrite Hl, Hl'. lia.
  - intros o0 w pots Hclean w1.
    pose proof (perturb_fock_calls_frame pyscf_get_hcore pots w) as Hf.
    fold w1 in Hf.
    pose proof (keeps_clean_copy o0 w w1 (frame_keeps w w1 Hf) Hclean) as Hclean1.
    destruct (restore_clean_copy o0 w1 Hclean1)
      as (w2 & Hrun & H2 & Har & Hclean2 & Hfresh).
    destruct (restore_scf_object_Ok w1 o0 (proj1 Hclean1))
      as (w2' & Hrun' & _ & Hc & _).
    rewrite Hrun in Hrun'. injection Hrun' as <-.
    exists w2. split; [exact Hrun |]. split; [exact H2 |].
    split; [exact Hfresh |]. split; [exact (proj2 Hclean2) |].
    split; [rewrite Hc, (proj1 Hf); reflexivity |].
    split; [exact Har |]. split; [exact Hclean2 |].
    intros args Hd. apply call_get_hcore_method; assumption.
Qed.

Lemma restore_scf_object_roundtrip_witness :
  exists (o0 : Scf.pyobject) (w2 w4 : Scf.world),
    Scf.objects (Scf.store ScfExample.w_pot) !! 0 = Some o0 /\
    Scf.restore_scf_object
      (Scf.perturb_fock_calls ScfExample.pyscf_get_hcore
         [Scf.PyNdarray 0; Scf.PyFloat 1%float; Scf.PyNdarray 0] ScfExample.w_pot)
    = (w2, Ok tt) /\
    Scf.objects (Scf.store w2) !! Scf.scf_object (Scf.self w2) = Some o0 /\
    Scf.scf_object (Scf.self w2) <> Scf._scf_object (Scf.self w2) /\
    Scf.restore_scf_object
      (Scf.perturb_fock_calls ScfExample.pyscf_get_hcore [Scf.PyNdarray 0] w2)
    = (w4, Ok tt) /\
    Scf.objects (Scf.store w4) !! Scf.scf_object (Scf.self w4) = Some o0 /\
    Scf.scf_object (Scf.self w4) <> Scf.scf_object (Scf.self w2).
Proof.
  pose proof (restore_scf_object_roundtrip
                ScfExample.pyscf_init ScfExample.pyscf_get_hcore) as [Hctor Hrt].
  destruct (Hctor ScfExample.co "sto-3g" "hf" None
                  {| Scf.arrays := [ScfExample.pot]; Scf.objects := [] |}
                  ScfExample.w_pot)
    as (o0 & H0 & Hclean).
  - vm_compute. reflexivity.
  - destruct (Hrt o0 ScfExample.w_pot
                  [Scf.PyNdarray 0; Scf.PyFloat 1%float; Scf.PyNdarray 0] Hclean)
      as (w2 & Hrun & H2 & _ & Hne & _ & _ & Hclean2 & _).
    destruct (Hrt o0 w2 [Scf.PyNdarray 0] Hclean2)
      as (w4 & Hrun4 & H4 & Hfresh & _).
    exists o0, w2, w4. split; [exact H0 |]. split; [exact Hrun |].
    split; [exact H2 |]. split; [exact Hne |]. split; [exact Hrun4 |].
    split; [exact H4 |].
    intros E. rewrite E in Hfresh.
    pose proof (perturb_fock_calls_frame ScfExample.pyscf_get_hcore
                  [Scf.PyNdarray 0] w2) as (Hs & Hlen & _).
    apply lookup_ge_None_1 in Hfresh.
    apply lookup_lt_Some in H2. rewrite Hlen in Hfresh. lia.
Defined.

(* ===================================================================== *)
(** * Further facts about the block loop                                  *)
(* ===================================================================== *)

Section FdeBounds.
Import Fde FdePotential.
Local Open Scope R_scope.

Variables (xc_e xc_v : R -> R) (na nb : nat) (dma dmb : mat).

Local Abbreviation loop_body := (loop_body xc_e xc_v na nb dma dmb).
Local Abbreviation block_loop := (block_loop xc_e xc_v na nb dma dmb).



End FdeBounds.


Section FdeScatter.
Import Fde FdePotential.
Local Open Scope R_scope.

(** The contraction over the points gives a symmetric block already. *)
Lemma einsum_pb_p_p_pa_symmetric (np : nat) (phi : mat) (v w : vec) :
  symmetric (einsum_pb_p_p_pa np phi v w).
Proof.
  intros a b. unfold einsum_pb_p_p_pa. apply sum_n_ext. intros p _. ring.
Qed.

Lemma last_match_Some_inv {A : Type} (P : A -> bool) (l : list A) (x : A) :
  last_match P l = Some x -> In x l /\ P x = true.
Proof.
  induction l as [| y l IH]; cbn [last_match]; intros H.
  - discriminate H.
  - destruct (last_match P l) as [z |].
    + injection H as ->. destruct (IH eq_refl) as [Hin HP].
      split; [right; exact Hin | exact HP].
    + destruct (P y) eqn:HPy; [| discriminate H].
      injection H as ->. split; [left; reflexivity | exact HPy].
Qed.

Lemma last_match_None_inv {A : Type} (P : A -> bool) (l : list A) :
  last_match P l = None -> forall x, In x l -> P x = false.
Proof.
  induction l as [| y l IH]; cbn [last_match]; intros H x Hx.
  - destruct Hx.
  - destruct (last_match P l) as [z |]; [discriminate H |].
    destruct (P y) eqn:HPy; [discriminate H |].
    destruct Hx as [<- | Hx]; [exact HPy | exact (IH eq_refl x Hx)].
Qed.

(** The row index that stands for basis function [i]: none when the block
    does not have [i], and the position of [i] when the block lists its
    functions once. *)
Lemma last_position_absent (lpos : list nat) (i : nat) :
  ~ In i lpos ->
  last_match (fun a => (i =? nth a lpos O)%nat) (seq 0 (length lpos)) = None.
Proof.
  intros Hi.
  destruct (last_match _ _) as [a |] eqn:E; [| reflexivity].
  apply last_match_Some_inv in E as [Ha HP].
  apply in_seq in Ha. apply Nat.eqb_eq in HP.
  exfalso. apply Hi. rewrite HP. apply nth_In. lia.
Qed.

Lemma last_position_NoDup (lpos : list nat) (a : nat) :
  List.NoDup lpos -> (a < length lpos)%nat ->
  last_match (fun a' => (nth a lpos O =? nth a' lpos O)%nat) (seq 0 (length lpos))
  = Some a.
Proof.
  intros Hnd Ha.
  destruct (last_match _ _) as [a' |] eqn:E.
  - apply last_match_Some_inv in E as [Ha' HP].
    apply in_seq in Ha'. apply Nat.eqb_eq in HP.
    f_equal. symmetry.
    apply (proj1 (List.NoDup_nth lpos O) Hnd a a'); [exact Ha | lia | exact HP].
  - assert (Hin : In a (seq 0 (length lpos))) by (apply in_seq; lia).
    pose proof (last_match_None_inv _ _ E a Hin) as H. cbv beta in H.
    rewrite Nat.eqb_refl in H. discriminate H.
Qed.

(** What [M[(lpos[:, None], lpos)] += S] leaves in cell [(i, j)]. *)
Lemma fancy_iadd_cell (n : nat) (M M' S : mat) (lpos : list nat) (i j : nat) :
  fancy_iadd n M lpos S = Ok M' ->
  M' i j
  = match last_match (fun a => (i =? nth a lpos O)%nat) (seq 0 (length lpos)),
          last_match (fun b => (j =? nth b lpos O)%nat) (seq 0 (length lpos))
    with
    | Some a, Some b => M (nth a lpos O) (nth b lpos O) + S a b
    | _, _ => M i j
    end.
Proof.
  intros H. unfold fancy_iadd in H.
  apply bind_Ok_inv in H as (cur & Hcur & H).
  apply fancy_get_Ok_inv in Hcur as [_ ->].
  exact (fancy_set_cell _ _ _ _ _ i j H).
Qed.

Lemma fancy_iadd_untouched (n : nat) (M M' S : mat) (lpos : list nat) (i j : nat) :
  fancy_iadd n M lpos S = Ok M' ->
  ~ (In i lpos /\ In j lpos) -> M' i j = M i j.
Proof.
  intros H Hij. rewrite (fancy_iadd_cell _ _ _ _ _ i j H).
  destruct (last_match (fun a => (i =? nth a lpos O)%nat) _) as [a |] eqn:Ea;
    [| reflexivity].
  destruct (last_match (fun b => (j =? nth b lpos O)%nat) _) as [b |] eqn:Eb;
    [| reflexivity].
  exfalso. apply Hij.
  apply last_match_Some_inv in Ea as [Ha HPa], Eb as [Hb HPb].
  apply in_seq in Ha, Hb. apply Nat.eqb_eq in HPa, HPb.
  split; [rewrite HPa | rewrite HPb]; apply nth_In; lia.
Qed.

Lemma fancy_iadd_NoDup (n : nat) (M M' S : mat) (lpos : list nat) (a b : nat) :
  fancy_iadd n M lpos S = Ok M' ->
  List.NoDup lpos -> (a < length lpos)%nat -> (b < length lpos)%nat ->
  M' (nth a lpos O) (nth b lpos O) = M (nth a lpos O) (nth b lpos O) + S a b.
Proof.
  intros H Hnd Ha Hb.
  rewrite (fancy_iadd_cell _ _ _ _ _ _ _ H).
  rewrite (last_position_NoDup lpos a Hnd Ha), (last_position_NoDup lpos b Hnd Hb).
  reflexivity.
Qed.

End FdeScatter.

Section FdeAssembly.
Import Fde FdePotential.
Local Open Scope R_scope.

Variables (xc_e xc_v : R -> R) (na nb : nat) (dma dmb : mat).

Local Abbreviation loop_body := (loop_body xc_e xc_v na nb dma dmb).
Local Abbreviation block_loop := (block_loop xc_e xc_v na nb dma dmb).
Local Abbreviation D := (dm_both na dma dmb).
Local Abbreviation Da := (dma_sup na dma dmb).

Lemma nad_matrix_symmetric (v : R -> R) (blk : block) :
  symmetric (nad_matrix v D Da blk).
Proof.
  intros a b. unfold nad_matrix. apply sum_n_ext. intros p _. ring.
Qed.

(** What one iteration leaves in a cell of [V] and of [Vt]. *)
Lemma loop_body_cell (st st' : loop_state) (blk : block) (i j : nat) :
  loop_body st blk = Ok st' ->
  let lpos := functions_local_to_global blk in
  let row := last_match (fun a => (i =? nth a lpos O)%nat) (seq 0 (length lpos)) in
  let col := last_match (fun b => (j =? nth b lpos O)%nat) (seq 0 (length lpos)) in
  V st' i j
  = match row, col with
    | Some a, Some b => V st (nth a lpos O) (nth b lpos O) + nad_matrix xc_v D Da blk a b
    | _, _ => V st i j
    end /\
  Vt st' i j
  = match row, col with
    | Some a, Some b => Vt st (nth a lpos O) (nth b lpos O) + nad_matrix tf_v D Da blk a b
    | _, _ => Vt st i j
    end.
Proof.
  intros H lpos row col. subst lpos row col. unfold Fde.loop_body in H.
  apply bind_Ok_inv in H as ([[r ra] rb] & Hd & H).
  apply block_densities_Ok_inv in Hd as (Hb & -> & -> & ->).
  cbn -[Nat.ltb] in H.
  apply bind_Ok_inv in H as (V' & HV & H).
  apply bind_Ok_inv in H as (Vt' & HVt & H).
  injection H as <-. cbn [V Vt].
  rewrite (fancy_iadd_cell _ _ _ _ _ i j HV), (fancy_iadd_cell _ _ _ _ _ i j HVt).
  destruct (last_match (fun a => (i =? nth a _ O)%nat) _) as [a |];
    [| split; reflexivity].
  destruct (last_match (fun b => (j =? nth b _ O)%nat) _) as [b |];
    [| split; reflexivity].
  split; f_equal.
  - rewrite <- (einsum_pb_p_p_pa_symmetric _ _ _ _ a b).
    unfold einsum_pb_p_p_pa, nad_matrix.
    replace (0.5 * (sum_n (npoints blk) _ + sum_n (npoints blk) _))
      with (sum_n (npoints blk)
              (fun p => basis_values_PHI blk p b
                        * ((if (p <? npoints blk)%nat
                            then xc_v (grid_density D blk p)
                            else values_V_RHO_A (superfunc st) p)
                           - (if (p <? npoints blk)%nat
                              then xc_v (grid_density Da blk p)
                              else if (p <? npoints blk)%nat
                                   then xc_v (grid_density D blk p)
                                   else values_V_RHO_A (superfunc st) p))
                        * w blk p * basis_values_PHI blk p a)) by lra.
    apply sum_n_ext. intros p Hp. apply Nat.ltb_lt in Hp. rewrite Hp. reflexivity.
  - rewrite <- (einsum_pb_p_p_pa_symmetric _ _ _ _ a b).
    unfold einsum_pb_p_p_pa, nad_matrix, tf_v.
    match goal with |- 0.5 * (?x + ?x) = _ => replace (0.5 * (x + x)) with x by lra end.
    reflexivity.
Qed.

End FdeAssembly.

Section FdeWholeLoop.
Import Fde FdePotential.
Local Open Scope R_scope.

Variables (xc_e xc_v : R -> R) (na nb : nat) (dma dmb : mat).

Local Abbreviation loop_body := (loop_body xc_e xc_v na nb dma dmb).
Local Abbreviation block_loop := (block_loop xc_e xc_v na nb dma dmb).

Lemma loop_body_untouched (st st' : loop_state) (blk : block) (i j : nat) :
  loop_body st blk = Ok st' ->
  ~ block_touches blk i j ->
  V st' i j = V st i j /\ Vt st' i j = Vt st i j.
Proof.
  intros H Hij.
  destruct (loop_body_cell xc_e xc_v na nb dma dmb st st' blk i j H) as [HV HVt].
  cbv zeta in HV, HVt. rewrite HV, HVt.
  destruct (last_match (fun a => (i =? nth a _ O)%nat) _) as [a |] eqn:Ea;
    [| split; reflexivity].
  destruct (last_match (fun b => (j =? nth b _ O)%nat) _) as [b |] eqn:Eb;
    [| split; reflexivity].
  exfalso. apply Hij.
  apply last_match_Some_inv in Ea as [Ha HPa], Eb as [Hb HPb].
  apply in_seq in Ha, Hb. apply Nat.eqb_eq in HPa, HPb.
  split; [rewrite HPa | rewrite HPb]; apply nth_In; lia.
Qed.

Lemma block_loop_untouched (blocks : list block) (st st' : loop_state) (i j : nat) :
  block_loop st blocks = Ok st' ->
  (forall blk, In blk blocks -> ~ block_touches blk i j) ->
  V st' i j = V st i j /\ Vt st' i j = Vt st i j.
Proof.
  revert st. induction blocks as [| blk blocks IH]; intros st H Hno.
  - injection H as <-. split; reflexivity.
  - apply block_loop_cons_inv in H as (st1 & H1 & H).
    destruct (IH st1 H) as [EV EVt].
    { intros b Hb. apply Hno. right. exact Hb. }
    destruct (loop_body_untouched _ _ _ i j H1) as [E1 E1t].
    { apply Hno. left. reflexivity. }
    split; congruence.
Qed.

Lemma same_results_step (st1 st2 st1' st2' : loop_state) (blk : block) :
  same_results st1 st2 ->
  loop_body st1 blk = Ok st1' -> loop_body st2 blk = Ok st2' ->
  same_results st1' st2'.
Proof.
  intros (A1 & A2 & A3 & A4 & A5 & A6 & A7 & A8 & A9 & AV & AVt) H1 H2.
  pose proof (loop_body_Ok_inv _ _ _ _ _ _ _ _ _ H1)
    as (_ & E1 & E2 & E3 & E4 & E5 & E6 & E7 & E8 & E9 & _).
  pose proof (loop_body_Ok_inv _ _ _ _ _ _ _ _ _ H2)
    as (_ & F1 & F2 & F3 & F4 & F5 & F6 & F7 & F8 & F9 & _).
  unfold same_results.
  rewrite E1, E2, E3, E4, E5, E6, E7, E8, E9, F1, F2, F3, F4, F5, F6, F7, F8, F9.
  rewrite A1, A2, A3, A4, A5, A6, A7, A8, A9.
  repeat (split; [reflexivity |]).
  split; intros i j.
  - rewrite (proj1 (loop_body_cell _ _ _ _ _ _ _ _ _ i j H1)).
    rewrite (proj1 (loop_body_cell _ _ _ _ _ _ _ _ _ i j H2)).
    destruct (last_match (fun a => (i =? nth a _ O)%nat) _) as [a |]; [| apply AV].
    destruct (last_match (fun b => (j =? nth b _ O)%nat) _) as [b |]; [| apply AV].
    rewrite AV. reflexivity.
  - rewrite (proj2 (loop_body_cell _ _ _ _ _ _ _ _ _ i j H1)).
    rewrite (proj2 (loop_body_cell _ _ _ _ _ _ _ _ _ i j H2)).
    destruct (last_match (fun a => (i =? nth a _ O)%nat) _) as [a |]; [| apply AVt].
    destruct (last_match (fun b => (j =? nth b _ O)%nat) _) as [b |]; [| apply AVt].
    rewrite AVt. reflexivity.
Qed.

Lemma same_results_loop (blocks : list block) (st1 st2 st1' : loop_state) :
  same_results st1 st2 ->
  block_loop st1 blocks = Ok st1' ->
  exists st2', block_loop st2 blocks = Ok st2' /\ same_results st1' st2'.
Proof.
  revert st1 st2. induction blocks as [| blk blocks IH]; intros st1 st2 Hs H.
  - injection H as <-. exists st2. split; [reflexivity | exact Hs].
  - apply block_loop_cons_inv in H as (s1 & H1 & H).
    pose proof (loop_body_Ok_inv _ _ _ _ _ _ _ _ _ H1) as (Hb & _).
    destruct (loop_body_in_bounds xc_e xc_v na nb dma dmb st2 blk Hb) as [s2 H2].
    destruct (IH s1 s2 (same_results_step _ _ _ _ _ Hs H1 H2) H) as (st2' & H' & Hs').
    exists st2'. split; [| exact Hs'].
    cbn [Fde.block_loop]. rewrite H2. exact H'.
Qed.

End FdeWholeLoop.

(** X2: one iteration adds the block's non-additive potential into the
    cells of [V] and [Vt] that belong to the block and leaves every other
    cell alone: for a block that lists its basis functions once, cell
    [(lpos a, lpos b)] of [V] grows by the sum over the block's points of
    [phi_a * w * (v_xc(rho) - v_xc(rho_A)) * phi_b], and that of [Vt] by the
    same with the Thomas-Fermi potential. *)
Theorem loop_body_assembles_potentials
        (xc_e xc_v : R -> R) (na nb : nat) (dma dmb : Fde.mat)
        (st st' : Fde.loop_state) (blk : Fde.block) :
  Fde.loop_body xc_e xc_v na nb dma dmb st blk = Ok st' ->
  let lpos := Fde.functions_local_to_global blk in
  let D := Fde.dm_both na dma dmb in
  let Da := Fde.dma_sup na dma dmb in
  (forall i j, ~ FdePotential.block_touches blk i j ->
               Fde.V st' i j = Fde.V st i j /\ Fde.Vt st' i j = Fde.Vt st i j) /\
  (List.NoDup lpos ->
   forall a b, a < length lpos -> b < length lpos ->
     Fde.V st' (nth a lpos O) (nth b lpos O)
     = (Fde.V st (nth a lpos O) (nth b lpos O)
        + FdePotential.nad_matrix xc_v D Da blk a b)%R /\
     Fde.Vt st' (nth a lpos O) (nth b lpos O)
     = (Fde.Vt st (nth a lpos O) (nth b lpos O)
        + FdePotential.nad_matrix FdePotential.tf_v D Da blk a b)%R).
Proof.
  intros H lpos D Da. split.
  - intros i j Hij.
    exact (loop_body_untouched xc_e xc_v na nb dma dmb st st' blk i j H Hij).
  - intros Hnd a b Ha Hb.
    destruct (loop_body_cell xc_e xc_v na nb dma dmb st st' blk
                             (nth a lpos O) (nth b lpos O) H) as [HV HVt].
    cbv zeta in HV, HVt. fold lpos in HV, HVt.
    rewrite (last_position_NoDup lpos a Hnd Ha),
            (last_position_NoDup lpos b Hnd Hb) in HV, HVt.
    split; assumption.
Qed.

Lemma loop_body_assembles_potentials_witness :
  exists st' : Fde.loop_state,
    Fde.loop_body FdeExample.xc_e FdeExample.xc_v 1 1 FdeExample.dma FdeExample.dmb
                  (Fde.init_state 1 FdeExample.dma FdeExample.dmb FdeExample.sf0)
                  FdeExample.blk = Ok st' /\
    Fde.V st' 0 1
    = (Fde.V (Fde.init_state 1 FdeExample.dma FdeExample.dmb FdeExample.sf0)
             0%nat 1%nat
       + FdePotential.nad_matrix FdeExample.xc_v
           (Fde.dm_both 1 FdeExample.dma FdeExample.dmb)
           (Fde.dma_sup 1 FdeExample.dma FdeExample.dmb)
           FdeExample.blk 0%nat 1%nat)%R.
Proof.
  eexists. split.
  - reflexivity.
  - assert (Hnd : List.NoDup (Fde.functions_local_to_global FdeExample.blk)).
    { repeat constructor; cbn; intuition lia. }
    assert (H0 : 0 < length (Fde.functions_local_to_global FdeExample.blk))
      by (cbn; lia).
    assert (H1 : 1 < length (Fde.functions_local_to_global FdeExample.blk))
      by (cbn; lia).
    exact (proj1 (proj2 (loop_body_assembles_potentials
                           FdeExample.xc_e FdeExample.xc_v 1 1
                           FdeExample.dma FdeExample.dmb
                           (Fde.init_state 1 FdeExample.dma FdeExample.dmb
                                           FdeExample.sf0)
                           _ FdeExample.blk eq_refl)
                        Hnd 0 1 H0 H1)).
Defined.


(** X3: after the loop, an entry of [V] or [Vt] whose two basis functions
    never occur together in a block is still zero. *)
Theorem potentials_zero_outside_blocks
        (xc_e xc_v : R -> R) (na nb : nat) (dma dmb : Fde.mat)
        (sf : Fde.superfunctional) (blocks : list Fde.block) (st : Fde.loop_state)
        (i j : nat) :
  Fde.block_loop xc_e xc_v na nb dma dmb (Fde.init_state na dma dmb sf) blocks
  = Ok st ->
  (forall blk, In blk blocks -> ~ FdePotential.block_touches blk i j) ->
  Fde.V st i j = 0%R /\ Fde.Vt st i j = 0%R.
Proof.
  intros H Hno.
  destruct (block_loop_untouched xc_e xc_v na nb dma dmb blocks _ st i j H Hno)
    as [EV EVt].
  rewrite EV, EVt. split; reflexivity.
Qed.

Lemma potentials_zero_outside_blocks_witness :
  exists st : Fde.loop_state,
    Fde.block_loop FdeExample.xc_e FdeExample.xc_v 1 2
                   FdeExample.dma FdeExample.dmb
                   (Fde.init_state 1 FdeExample.dma FdeExample.dmb FdeExample.sf0)
                   [FdeExample.blk] = Ok st /\
    (Fde.V st 0 2 = 0%R /\ Fde.Vt st 0 2 = 0%R) /\
    (Fde.V st 2 1 = 0%R /\ Fde.Vt st 2 1 = 0%R) /\
    (Fde.V st 2 2 = 0%R /\ Fde.Vt st 2 2 = 0%R).
Proof.
  eexists. split; [reflexivity |].
  split; [| split].
  - refine (potentials_zero_outside_blocks
              FdeExample.xc_e FdeExample.xc_v 1 2
              FdeExample.dma FdeExample.dmb FdeExample.sf0
              [FdeExample.blk] _ 0 2 eq_refl _).
    intros blk [<- | []] [_ Hj]. cbn in Hj. intuition lia.
  - refine (potentials_zero_outside_blocks
              FdeExample.xc_e FdeExample.xc_v 1 2
              FdeExample.dma FdeExample.dmb FdeExample.sf0
              [FdeExample.blk] _ 2 1 eq_refl _).
    intros blk [<- | []] [Hi _]. cbn in Hi. intuition lia.
  - refine (potentials_zero_outside_blocks
              FdeExample.xc_e FdeExample.xc_v 1 2
              FdeExample.dma FdeExample.dmb FdeExample.sf0
              [FdeExample.blk] _ 2 2 eq_refl _).
    intros blk [<- | []] [Hi _]. cbn in Hi. intuition lia.
Defined.

(** X4: what the functional's vectors held before the loop does not
    matter: started on other contents the loop also completes, with the same
    sums and the same [V] and [Vt]. *)
Theorem results_independent_of_functional_buffers
        (xc_e xc_v : R -> R) (na nb : nat) (dma dmb : Fde.mat)
        (sf sf' : Fde.superfunctional) (blocks : list Fde.block)
        (st : Fde.loop_state) :
  Fde.block_loop xc_e xc_v na nb dma dmb (Fde.init_state na dma dmb sf) blocks
  = Ok st ->
  exists st',
    Fde.block_loop xc_e xc_v na nb dma dmb (Fde.init_state na dma dmb sf') blocks
    = Ok st' /\
    FdePotential.same_results st st'.
Proof.
  intros H.
  apply (same_results_loop xc_e xc_v na nb dma dmb blocks
                           (Fde.init_state na dma dmb sf)); [| exact H].
  repeat split.
Qed.

Lemma results_independent_of_functional_buffers_witness :
  exists st st' : Fde.loop_state,
    Fde.block_loop FdeExample.xc_e FdeExample.xc_v 1 1
                   FdeExample.dma FdeExample.dmb
                   (Fde.init_state 1 FdeExample.dma FdeExample.dmb FdeExample.sf0)
                   [FdeExample.blk] = Ok st /\
    Fde.block_loop FdeExample.xc_e FdeExample.xc_v 1 1
                   FdeExample.dma FdeExample.dmb
                   (Fde.init_state 1 FdeExample.dma FdeExample.dmb
                      {| Fde.values_V := fun _ => 7%R;
                         Fde.values_V_RHO_A := fun _ => 9%R |})
                   [FdeExample.blk] = Ok st' /\
    FdePotential.same_results st st'.
Proof.
  eexists.
  destruct (results_independent_of_functional_buffers
              FdeExample.xc_e FdeExample.xc_v 1 1 FdeExample.dma FdeExample.dmb
              FdeExample.sf0
              {| Fde.values_V := fun _ => 7%R; Fde.values_V_RHO_A := fun _ => 9%R |}
              [FdeExample.blk] _ eq_refl) as (st' & H' & Hs).
  exists st'. split; [reflexivity |]. split; [exact H' | exact Hs].
Defined.

Section FdeFiniteSums.
Import Fde FdePotential.
Local Open Scope R_scope.

Lemma sum_n_zero (n : nat) (f : nat -> R) :
  (forall i, (i < n)%nat -> f i = 0) -> sum_n n f = 0.
Proof.
  induction n as [| n IH]; intros H; simpl.
  - reflexivity.
  - rewrite IH by (intros i Hi; apply H; lia). rewrite (H n) by lia. ring.
Qed.

Lemma sum_n_scal (n : nat) (c : R) (f : nat -> R) :
  sum_n n (fun i => c * f i) = c * sum_n n f.
Proof.
  induction n as [| n IH]; simpl.
  - ring.
  - rewrite IH. ring.
Qed.



Lemma sum_n_nonneg (n : nat) (f : nat -> R) :
  (forall i, (i < n)%nat -> 0 <= f i) -> 0 <= sum_n n f.
Proof.
  induction n as [| n IH]; intros H; simpl.
  - lra.
  - pose proof (IH (fun i Hi => H i (Nat.lt_lt_succ_r _ _ Hi))).
    pose proof (H n (Nat.lt_succ_diag_r n)). lra.
Qed.




End FdeFiniteSums.

Section FdeIntegral.
Import Fde FdePotential.
Local Open Scope R_scope.

Variables (xc_e xc_v : R -> R) (na nb : nat) (dma dmb : mat).

Local Abbreviation loop_body := (loop_body xc_e xc_v na nb dma dmb).
Local Abbreviation block_loop := (block_loop xc_e xc_v na nb dma dmb).
Local Abbreviation D := (dm_both na dma dmb).
Local Abbreviation Da := (dma_sup na dma dmb).

(** [2 * sum_ab M[a, b] * dma[b, a]] over the block of subsystem A. *)
Local Abbreviation contract M :=
  (2 * sum_n na (fun a => sum_n na (fun b => M a b * dma b a))).

(** One iteration adds the block's contribution to every cell. *)
Lemma loop_body_adds (st st' : loop_state) (blk : block) (i j : nat) :
  loop_body st blk = Ok st' ->
  V st' i j = V st i j + block_contribution xc_v D Da blk i j /\
  Vt st' i j = Vt st i j + block_contribution tf_v D Da blk i j.
Proof.
  intros H.
  destruct (loop_body_cell xc_e xc_v na nb dma dmb st st' blk i j H) as [HV HVt].
  cbv zeta in HV, HVt. rewrite HV, HVt. unfold block_contribution. cbv zeta.
  destruct (last_match (fun a => (i =? nth a _ O)%nat) _) as [a |] eqn:Ea;
    [| split; ring].
  destruct (last_match (fun b => (j =? nth b _ O)%nat) _) as [b |] eqn:Eb;
    [| split; ring].
  apply last_match_Some_inv in Ea as [_ HPa], Eb as [_ HPb].
  apply Nat.eqb_eq in HPa, HPb. rewrite <- HPa, <- HPb. split; reflexivity.
Qed.







Lemma int_emb_mismatch (M : mat) :
  (1 < na)%nat -> Nat.min 10 (nbf na nb) <> na ->
  int_emb na nb dma M = Raise ValueError.
Proof.
  intros H1 Hk. unfold int_emb, einsum_ab_ba, broadcast. cbv zeta.
  unfold nbf in *.
  destruct (Nat.eqb_spec (Nat.min 10 (na + nb)) na) as [E | _]; [contradiction |].
  destruct (Nat.eqb_spec (Nat.min 10 (na + nb)) 1) as [E | _]; [lia |].
  destruct (Nat.eqb_spec na 1) as [E | _]; [lia |].
  reflexivity.
Qed.

End FdeIntegral.



(** X6: the slice [V[:10, :10]] is cut at ten whatever the size of
    subsystem A: when A has more than one basis function and the slice has
    another number of rows than [dma], the contraction of line 225 raises a
    ValueError. *)
Theorem int_emb_needs_ten_functions
        (na nb : nat) (dma M : Fde.mat) :
  1 < na -> Nat.min 10 (Fde.nbf na nb) <> na ->
  FdePotential.int_emb na nb dma M = Raise ValueError.
Proof. intros H1 Hk. exact (int_emb_mismatch na nb dma M H1 Hk). Qed.

Lemma int_emb_needs_ten_functions_witness :
  FdePotential.int_emb 2 1 FdeExample.dma (fun _ _ => 0%R) = Raise ValueError /\
  FdePotential.int_emb 11 3 FdeExample.dma (fun _ _ => 0%R) = Raise ValueError.
Proof.
  split.
  - apply (int_emb_needs_ten_functions 2 1); [lia | cbn; lia].
  - apply (int_emb_needs_ten_functions 11 3); [lia | cbn; lia].
Defined.

Section FdeOrder.
Import Fde FdePotential.
Local Open Scope R_scope.

Variables (xc_e xc_v : R -> R) (na nb : nat) (dma dmb : mat).

Local Abbreviation loop_body := (loop_body xc_e xc_v na nb dma dmb).
Local Abbreviation block_loop := (block_loop xc_e xc_v na nb dma dmb).

Lemma same_results_refl (st : loop_state) : same_results st st.
Proof. repeat split. Qed.

Lemma same_results_trans (s1 s2 s3 : loop_state) :
  same_results s1 s2 -> same_results s2 s3 -> same_results s1 s3.
Proof.
  intros (A1 & A2 & A3 & A4 & A5 & A6 & A7 & A8 & A9 & AV & AVt)
         (B1 & B2 & B3 & B4 & B5 & B6 & B7 & B8 & B9 & BV & BVt).
  unfold same_results.
  do 9 (split; [congruence |]).
  split; intros i j; [rewrite AV; apply BV | rewrite AVt; apply BVt].
Qed.

(** Two iterations commute. *)
Lemma loop_body_swap (st s1 s2 t1 t2 : loop_state) (b1 b2 : block) :
  loop_body st b1 = Ok s1 -> loop_body s1 b2 = Ok s2 ->
  loop_body st b2 = Ok t1 -> loop_body t1 b1 = Ok t2 ->
  same_results s2 t2.
Proof.
  intros H1 H2 H3 H4.
  pose proof (loop_body_Ok_inv _ _ _ _ _ _ _ _ _ H1)
    as (_ & A1 & A2 & A3 & A4 & A5 & A6 & A7 & A8 & A9 & _).
  pose proof (loop_body_Ok_inv _ _ _ _ _ _ _ _ _ H2)
    as (_ & B1 & B2 & B3 & B4 & B5 & B6 & B7 & B8 & B9 & _).
  pose proof (loop_body_Ok_inv _ _ _ _ _ _ _ _ _ H3)
    as (_ & C1 & C2 & C3 & C4 & C5 & C6 & C7 & C8 & C9 & _).
  pose proof (loop_body_Ok_inv _ _ _ _ _ _ _ _ _ H4)
    as (_ & E1 & E2 & E3 & E4 & E5 & E6 & E7 & E8 & E9 & _).
  cbv zeta in *.
  unfold same_results.
  do 9 (split; [lra |]).
  split; intros i j.
  - pose proof (proj1 (loop_body_adds _ _ _ _ _ _ _ _ _ i j H1)).
    pose proof (proj1 (loop_body_adds _ _ _ _ _ _ _ _ _ i j H2)).
    pose proof (proj1 (loop_body_adds _ _ _ _ _ _ _ _ _ i j H3)).
    pose proof (proj1 (loop_body_adds _ _ _ _ _ _ _ _ _ i j H4)).
    lra.
  - pose proof (proj2 (loop_body_adds _ _ _ _ _ _ _ _ _ i j H1)).
    pose proof (proj2 (loop_body_adds _ _ _ _ _ _ _ _ _ i j H2)).
    pose proof (proj2 (loop_body_adds _ _ _ _ _ _ _ _ _ i j H3)).
    pose proof (proj2 (loop_body_adds _ _ _ _ _ _ _ _ _ i j H4)).
    lra.
Qed.

Lemma loop_body_runs_again (st st' s : loop_state) (blk : block) :
  loop_body st blk = Ok st' -> exists s', loop_body s blk = Ok s'.
Proof.
  intros H.
  pose proof (loop_body_Ok_inv _ _ _ _ _ _ _ _ _ H) as (Hb & _).
  exact (loop_body_in_bounds xc_e xc_v na nb dma dmb s blk Hb).
Qed.

Lemma block_loop_permutation (l l' : list block) :
  Permutation l l' ->
  forall st1 st2 st1',
    same_results st1 st2 ->
    block_loop st1 l = Ok st1' ->
    exists st2', block_loop st2 l' = Ok st2' /\ same_results st1' st2'.
Proof.
  induction 1 as [| x l l' _ IH | x y l | l l' l'' _ IH1 _ IH2];
    intros st1 st2 st1' Hs H.
  - injection H as <-. exists st2. split; [reflexivity | exact Hs].
  - apply block_loop_cons_inv in H as (s1 & H1 & H).
    destruct (loop_body_runs_again _ _ st2 _ H1) as [s2 H2].
    destruct (IH s1 s2 st1' (same_results_step _ _ _ _ _ _ _ _ _ _ _ Hs H1 H2) H)
      as (st2' & H' & Hs').
    exists st2'. split; [| exact Hs'].
    cbn [Fde.block_loop]. rewrite H2. exact H'.
  - apply block_loop_cons_inv in H as (a & Ha & H).
    apply block_loop_cons_inv in H as (b & Hb & H).
    destruct (loop_body_runs_again _ _ st1 _ Hb) as [c' Hc'].
    destruct (loop_body_runs_again _ _ c' _ Ha) as [d' Hd'].
    destruct (loop_body_runs_again _ _ st2 _ Hb) as [c Hc].
    destruct (loop_body_runs_again _ _ c _ Ha) as [d Hd].
    assert (Hbd : same_results b d).
    { apply (same_results_trans b d' d).
      - exact (loop_body_swap _ _ _ _ _ _ _ Ha Hb Hc' Hd').
      - apply (same_results_step xc_e xc_v na nb dma dmb c' c d' d y); [| exact Hd' | exact Hd].
        exact (same_results_step _ _ _ _ _ _ _ _ _ _ _ Hs Hc' Hc). }
    destruct (same_results_loop _ _ _ _ _ _ l b d st1' Hbd H) as (st2' & H' & Hs').
    exists st2'. split; [| exact Hs'].
    cbn [Fde.block_loop]. rewrite Hc. cbn [mbind result_bind]. rewrite Hd. exact H'.
  - destruct (IH1 st1 st2 st1' Hs H) as (m & Hm & Hsm).
    destruct (IH2 st2 st2 m (same_results_refl st2) Hm) as (st2' & H' & Hs').
    exists st2'. split; [exact H' |].
    exact (same_results_trans _ _ _ Hsm Hs').
Qed.

End FdeOrder.

(** X7: the order in which the grid hands out its blocks does not matter:
    on a rearranged list of the same blocks the loop also completes, with
    the same nine sums and the same [V] and [Vt]. *)
Theorem block_order_does_not_matter
        (xc_e xc_v : R -> R) (na nb : nat) (dma dmb : Fde.mat)
        (sf : Fde.superfunctional) (blocks blocks' : list Fde.block)
        (st : Fde.loop_state) :
  Permutation blocks blocks' ->
  Fde.block_loop xc_e xc_v na nb dma dmb (Fde.init_state na dma dmb sf) blocks
  = Ok st ->
  exists st',
    Fde.block_loop xc_e xc_v na nb dma dmb (Fde.init_state na dma dmb sf) blocks'
    = Ok st' /\
    FdePotential.same_results st st'.
Proof.
  intros Hp H.
  exact (block_loop_permutation xc_e xc_v na nb dma dmb blocks blocks' Hp
           _ _ st (same_results_refl _) H).
Qed.

Lemma block_order_does_not_matter_witness :
  let blk2 := {| Fde.npoints := 1; Fde.functions_local_to_global := [1%nat];
                 Fde.w := fun _ => 2%R; Fde.basis_values_PHI := fun _ _ => 1%R |} in
  exists st st' : Fde.loop_state,
    Fde.block_loop FdeExample.xc_e FdeExample.xc_v 1 1
                   FdeExample.dma FdeExample.dmb
                   (Fde.init_state 1 FdeExample.dma FdeExample.dmb FdeExample.sf0)
                   [FdeExample.blk; blk2] = Ok st /\
    Fde.block_loop FdeExample.xc_e FdeExample.xc_v 1 1
                   FdeExample.dma FdeExample.dmb
                   (Fde.init_state 1 FdeExample.dma FdeExample.dmb FdeExample.sf0)
                   [blk2; FdeExample.blk] = Ok st' /\
    FdePotential.same_results st st'.
Proof.
  intros blk2. eexists.
  destruct (block_order_does_not_matter
              FdeExample.xc_e FdeExample.xc_v 1 1 FdeExample.dma FdeExample.dmb
              FdeExample.sf0 [FdeExample.blk; blk2] [blk2; FdeExample.blk] _
              (perm_swap blk2 FdeExample.blk []) eq_refl) as (st' & H' & Hs).
  exists st'. split; [reflexivity |]. split; [exact H' | exact Hs].
Defined.

Section FdeKineticSign.
Import Fde FdePotential.
Local Open Scope R_scope.

Lemma np_power_mono (x y e : R) :
  0 <= x -> x <= y -> 0 <= e -> np_power x e <= np_power y e.
Proof.
  intros [Hx | <-] Hxy He.
  - rewrite !np_power_pos by lra. apply Rle_Rpower_l; lra.
  - rewrite np_power_zero. apply np_power_nonneg.
Qed.

(** [x^(5/3)] of a sum is at least the sum of the [x^(5/3)]. *)
Lemma np_power_superadditive (a b : R) :
  0 <= a -> 0 <= b ->
  np_power a (5 / 3) + np_power b (5 / 3) <= np_power (a + b) (5 / 3).
Proof.
  intros Ha Hb.
  replace (5 / 3) with (2 / 3 + 1) by field.
  rewrite <- !np_power_step by lra.
  pose proof (np_power_mono a (a + b) (2 / 3) Ha ltac:(lra) ltac:(lra)) as Ma.
  pose proof (np_power_mono b (a + b) (2 / 3) Hb ltac:(lra) ltac:(lra)) as Mb.
  pose proof (Rmult_le_compat_r a _ _ Ha Ma).
  pose proof (Rmult_le_compat_r b _ _ Hb Mb).
  lra.
Qed.

Lemma cf_pos : 0 < cf.
Proof. unfold cf. lra. Qed.

Lemma tf_e_superadditive (a b : R) :
  0 <= a -> 0 <= b -> tf_e a + tf_e b <= tf_e (a + b).
Proof.
  intros Ha Hb. unfold tf_e.
  pose proof (np_power_superadditive a b Ha Hb).
  pose proof cf_pos. nra.
Qed.

Variables (na : nat) (dma dmb : mat).

Local Abbreviation D := (dm_both na dma dmb).
Local Abbreviation Da := (dma_sup na dma dmb).
Local Abbreviation Db := (dmb_sup na dma dmb).

Lemma quadrature_tf_superadditive (blocks : list block) :
  Forall (fun blk => forall p, (p < npoints blk)%nat ->
                               0 <= w blk p /\
                               0 <= grid_density Da blk p /\
                               0 <= grid_density Db blk p) blocks ->
  quadrature tf_e Da blocks + quadrature tf_e Db blocks <= quadrature tf_e D blocks.
Proof.
  induction 1 as [| blk blocks Hblk _ IH].
  - cbn. lra.
  - rewrite !quadrature_cons.
    assert (Hb : 0 <= einsum_a_a (npoints blk) (w blk)
                        (fun p => tf_e (grid_density D blk p)
                                  - tf_e (grid_density Da blk p)
                                  - tf_e (grid_density Db blk p))).
    { unfold einsum_a_a. apply sum_n_nonneg. intros p Hp.
      destruct (Hblk p Hp) as (Hw & Ha & Hb).
      rewrite grid_density_split.
      pose proof (tf_e_superadditive _ _ Ha Hb).
      apply Rmult_le_pos; lra. }
    assert (Hsplit :
              einsum_a_a (npoints blk) (w blk)
                (fun p => tf_e (grid_density D blk p)
                          - tf_e (grid_density Da blk p)
                          - tf_e (grid_density Db blk p))
              = einsum_a_a (npoints blk) (w blk) (fun p => tf_e (grid_density D blk p))
                - einsum_a_a (npoints blk) (w blk)
                    (fun p => tf_e (grid_density Da blk p))
                - einsum_a_a (npoints blk) (w blk)
                    (fun p => tf_e (grid_density Db blk p))).
    { unfold einsum_a_a.
      assert (Hm : forall n f, sum_n n (fun a => - f a) = - sum_n n f).
      { intros n f. induction n as [| n IHn]; simpl; [ring | rewrite IHn; ring]. }
      unfold Rminus. rewrite <- !Hm, <- !sum_n_plus.
      apply sum_n_ext. intros p _. ring. }
    lra.
Qed.

End FdeKineticSign.

(** X8: over the reals, with grid weights that are not negative and
    subsystem densities that are not negative at any grid point, the
    non-additive Thomas-Fermi kinetic energy [enad_t] is not negative.  (The
    binary64 value can come out below zero by rounding.) *)
Theorem kinetic_nad_energy_nonneg
        (xc_e xc_v : R -> R) (na nb : nat) (dma dmb : Fde.mat)
        (sf : Fde.superfunctional) (blocks : list Fde.block)
        (st : Fde.loop_state) :
  Fde.block_loop xc_e xc_v na nb dma dmb (Fde.init_state na dma dmb sf) blocks
  = Ok st ->
  Forall (fun blk =>
            forall p, p < Fde.npoints blk ->
                      (0 <= Fde.w blk p)%R /\
                      (0 <= Fde.grid_density (Fde.dma_sup na dma dmb) blk p)%R /\
                      (0 <= Fde.grid_density (Fde.dmb_sup na dma dmb) blk p)%R)
         blocks ->
  (0 <= Fde.enad_t st)%R.
Proof.
  intros H Hall.
  destruct (block_loop_accumulates xc_e xc_v na nb dma dmb blocks _ st H)
    as (_ & _ & _ & _ & _ & _ & E7 & E8 & E9).
  pose proof (quadrature_tf_superadditive na dma dmb blocks Hall) as Hq.
  unfold Fde.enad_t. rewrite E7, E8, E9. cbn [Fde.et_tot Fde.et_a Fde.et_b Fde.init_state].
  unfold FdePotential.tf_e in Hq. lra.
Qed.

Lemma kinetic_nad_energy_nonneg_witness :
  exists st : Fde.loop_state,
    Fde.block_loop FdeExample.xc_e FdeExample.xc_v 1 1
                   FdeExample.dma FdeExample.dmb
                   (Fde.init_state 1 FdeExample.dma FdeExample.dmb FdeExample.sf0)
                   [FdeExample.blk] = Ok st /\
    (0 <= Fde.enad_t st)%R.
Proof.
  eexists. split.
  - reflexivity.
  - refine (kinetic_nad_energy_nonneg
              FdeExample.xc_e FdeExample.xc_v 1 1 FdeExample.dma FdeExample.dmb
              FdeExample.sf0 [FdeExample.blk] _ eq_refl _).
    repeat constructor.
    + cbn. lra.
    + unfold Fde.grid_density, Fde.einsum_pm_mn_pn, Fde.dma_sup, Fde.block_diag,
        Fde.dbzeros, Fde.zeros_like, FdeExample.dma. cbn. lra.
    + unfold Fde.grid_density, Fde.einsum_pm_mn_pn, Fde.dmb_sup, Fde.block_diag,
        Fde.dazeros, Fde.zeros_like, FdeExample.dmb. cbn. lra.
Defined.

Section FdeEmptyEnvironment.
Import Fde FdePotential.
Local Open Scope R_scope.

Variables (xc_e xc_v : R -> R) (na nb : nat) (dma dmb : mat).

Local Abbreviation loop_body := (loop_body xc_e xc_v na nb dma dmb).
Local Abbreviation block_loop := (block_loop xc_e xc_v na nb dma dmb).
Local Abbreviation D := (dm_both na dma dmb).
Local Abbreviation Da := (dma_sup na dma dmb).
Local Abbreviation Db := (dmb_sup na dma dmb).

Lemma grid_density_ext (M M' : mat) (blk : block) (p : nat) :
  (forall i j, M i j = M' i j) -> grid_density M blk p = grid_density M' blk p.
Proof.
  intros H. unfold grid_density. f_equal.
  apply einsum_pm_mn_pn_ext. intros a b. apply H.
Qed.

Lemma grid_density_zero (M : mat) (blk : block) (p : nat) :
  (forall i j, M i j = 0) -> grid_density M blk p = 0.
Proof.
  intros H. unfold grid_density, einsum_pm_mn_pn.
  rewrite sum_n_zero; [ring |]. intros m _.
  apply sum_n_zero. intros n _. rewrite H. ring.
Qed.

Lemma quadrature_ext (f : R -> R) (M M' : mat) (blocks : list block) :
  (forall blk p, grid_density M blk p = grid_density M' blk p) ->
  quadrature f M blocks = quadrature f M' blocks.
Proof.
  intros H. induction blocks as [| blk blocks IH].
  - reflexivity.
  - rewrite !quadrature_cons, IH. f_equal.
    apply einsum_a_a_ext. intros p _. rewrite H. reflexivity.
Qed.

Lemma quadrature_const (f : R -> R) (M : mat) (c : R) (blocks : list block) :
  (forall blk p, grid_density M blk p = c) ->
  quadrature f M blocks = f c * total_weight blocks.
Proof.
  intros H. induction blocks as [| blk blocks IH].
  - cbn. ring.
  - rewrite quadrature_cons, IH. cbn [total_weight fold_right].
    fold (total_weight blocks).
    unfold einsum_a_a.
    rewrite (sum_n_ext _ _ (fun a => f c * w blk a))
      by (intros a _; rewrite H; ring).
    rewrite sum_n_scal. ring.
Qed.

Lemma block_contribution_vanishes (v : R -> R) (M M' : mat) (blk : block) (i j : nat) :
  (forall p, grid_density M blk p = grid_density M' blk p) ->
  block_contribution v M M' blk i j = 0.
Proof.
  intros H. unfold block_contribution. cbv zeta.
  destruct (last_match _ _) as [a |]; [| reflexivity].
  destruct (last_match _ _) as [b |]; [| reflexivity].
  unfold nad_matrix. apply sum_n_zero. intros p _. rewrite H. ring.
Qed.

Hypothesis dmb_zero : forall i j, dmb i j = 0.

Lemma dm_both_is_dma_sup (i j : nat) : D i j = Da i j.
Proof.
  unfold dm_both, dma_sup, dbzeros, block_diag, zeros_like.
  destruct (i <? na)%nat, (j <? na)%nat; try reflexivity. apply dmb_zero.
Qed.

Lemma dmb_sup_zero (i j : nat) : Db i j = 0.
Proof.
  unfold dmb_sup, dazeros, block_diag, zeros_like.
  destruct (i <? na)%nat, (j <? na)%nat; try reflexivity. apply dmb_zero.
Qed.

Lemma block_loop_no_potential (blocks : list block) (st st' : loop_state) (i j : nat) :
  block_loop st blocks = Ok st' ->
  V st' i j = V st i j /\ Vt st' i j = Vt st i j.
Proof.
  revert st. induction blocks as [| blk blocks IH]; intros st H.
  - injection H as <-. split; reflexivity.
  - apply block_loop_cons_inv in H as (st1 & H1 & H).
    destruct (IH st1 H) as [EV EVt].
    destruct (loop_body_adds _ _ _ _ _ _ _ _ _ i j H1) as [E1 E1t].
    rewrite !block_contribution_vanishes in E1, E1t
      by (intros p; apply grid_density_ext, dm_both_is_dma_sup).
    split; lra.
Qed.

Lemma empty_environment_energies (blocks : list block) (st st' : loop_state) :
  block_loop st blocks = Ok st' ->
  et_tot st' - et_a st' - et_b st' = et_tot st - et_a st - et_b st /\
  exc_tot st' - exc_a st' - exc_b st'
  = exc_tot st - exc_a st - exc_b st - xc_e 0 * total_weight blocks.
Proof.
  intros H.
  destruct (block_loop_accumulates xc_e xc_v na nb dma dmb blocks st st' H)
    as (_ & _ & _ & E4 & E5 & E6 & E7 & E8 & E9).
  rewrite E4, E5, E6, E7, E8, E9.
  rewrite (quadrature_ext _ D Da)
    by (intros blk p; apply grid_density_ext, dm_both_is_dma_sup).
  rewrite (quadrature_ext xc_e D Da)
    by (intros blk p; apply grid_density_ext, dm_both_is_dma_sup).
  rewrite (quadrature_const _ Db 0)
    by (intros blk p; apply grid_density_zero, dmb_sup_zero).
  rewrite (quadrature_const xc_e Db 0)
    by (intros blk p; apply grid_density_zero, dmb_sup_zero).
  rewrite np_power_zero. split; ring.
Qed.

Lemma empty_environment_exc_b (blocks : list block) (st st' : loop_state) :
  block_loop st blocks = Ok st' ->
  exc_b st' = exc_b st + xc_e 0 * total_weight blocks.
Proof.
  intros H.
  destruct (block_loop_accumulates xc_e xc_v na nb dma dmb blocks st st' H)
    as (_ & _ & _ & _ & _ & E6 & _).
  rewrite E6.
  rewrite (quadrature_const xc_e Db 0)
    by (intros blk p; apply grid_density_zero, dmb_sup_zero).
  reflexivity.
Qed.

End FdeEmptyEnvironment.

(** X9: an environment without density embeds nothing: when [dmb] is zero
    and the density of A is not negative at any grid point, [V] and [Vt]
    stay zero, [enad_t] is zero, and [enad_xc] is minus the energy the
    functional gives subsystem B, [-exc_b]; over the reals [exc_b] is the
    energy density at zero density times the sum of the grid weights. *)
Theorem empty_environment_embeds_nothing
        (xc_e xc_v : R -> R) (na nb : nat) (dma dmb : Fde.mat)
        (sf : Fde.superfunctional) (blocks : list Fde.block)
        (st : Fde.loop_state) :
  (forall i j, dmb i j = 0%R) ->
  Forall (fun blk =>
            forall p, p < Fde.npoints blk ->
                      (0 <= Fde.grid_density (Fde.dma_sup na dma dmb) blk p)%R)
         blocks ->
  Fde.block_loop xc_e xc_v na nb dma dmb (Fde.init_state na dma dmb sf) blocks
  = Ok st ->
  (forall i j, Fde.V st i j = 0%R /\ Fde.Vt st i j = 0%R) /\
  Fde.enad_t st = 0%R /\
  Fde.enad_xc st = (- Fde.exc_b st)%R /\
  Fde.exc_b st = (xc_e 0 * FdePotential.total_weight blocks)%R.
Proof.
  intros Hz _ H. split; [| split; [| split]].
  - intros i j.
    destruct (block_loop_no_potential xc_e xc_v na nb dma dmb Hz blocks _ st i j H)
      as [EV EVt].
    rewrite EV, EVt. split; reflexivity.
  - destruct (empty_environment_energies xc_e xc_v na nb dma dmb Hz blocks _ st H)
      as [Et _].
    unfold Fde.enad_t. rewrite Et. cbn. ring.
  - destruct (empty_environment_energies xc_e xc_v na nb dma dmb Hz blocks _ st H)
      as [_ Exc].
    pose proof (empty_environment_exc_b xc_e xc_v na nb dma dmb Hz blocks _ st H)
      as Eb.
    unfold Fde.enad_xc in *. cbn [Fde.exc_tot Fde.exc_a Fde.exc_b Fde.init_state] in *.
    lra.
  - pose proof (empty_environment_exc_b xc_e xc_v na nb dma dmb Hz blocks _ st H)
      as Eb.
    cbn [Fde.exc_b Fde.init_state] in Eb. lra.
Qed.

Lemma empty_environment_embeds_nothing_witness :
  exists st : Fde.loop_state,
    Fde.block_loop FdeExample.xc_e FdeExample.xc_v 1 1
                   FdeExample.dma (fun _ _ => 0%R)
                   (Fde.init_state 1 FdeExample.dma (fun _ _ => 0%R) FdeExample.sf0)
                   [FdeExample.blk] = Ok st /\
    Fde.enad_t st = 0%R /\
    Fde.enad_xc st = (- Fde.exc_b st)%R.
Proof.
  eexists. split.
  - reflexivity.
  - refine ((fun H => conj (proj1 (proj2 H)) (proj1 (proj2 (proj2 H))))
              (empty_environment_embeds_nothing
                 FdeExample.xc_e FdeExample.xc_v 1 1
                 FdeExample.dma (fun _ _ => 0%R) FdeExample.sf0
                 [FdeExample.blk] _ _ _ eq_refl)).
    + intros i j. reflexivity.
    + constructor; [| constructor]. intros q Hq.
      unfold Fde.grid_density, Fde.einsum_pm_mn_pn, Fde.dma_sup, Fde.block_diag,
        Fde.dbzeros, Fde.zeros_like, FdeExample.dma. cbn. lra.
Defined.

(* ===================================================================== *)
(** * Further facts about get_pyscf_molecule                              *)
(* ===================================================================== *)

Section PyscfMoleculeSuffix.
Import PyStr PyscfMolecule.

Lemma filter_split_length {A : Type} (P : A -> bool) (l : list A) :
  length (List.filter P l) + length (List.filter (fun a => negb (P a)) l)
  = length l.
Proof.
  induction l as [| a l IH]; simpl.
  - reflexivity.
  - destruct (P a); simpl; lia.
Qed.

Lemma get_pyscf_molecule_drops (mol : molecule) (basis : string) (m : Z) :
  molecular_multiplicity mol = Some m ->
  get_pyscf_molecule mol basis
  = Ok {| atom := join nl (drop (length (List.filter short_line
                                           (splitlines (to_string_xyz mol))))
                                (splitlines (to_string_xyz mol)));
          basis := basis; spin := (m - 1)%Z |}.
Proof.
  intros Hm. unfold get_pyscf_molecule. rewrite Hm. cbv zeta.
  rewrite count_short. reflexivity.
Qed.

End PyscfMoleculeSuffix.

(** X20: [get_pyscf_molecule] cuts lines off the front of the XYZ text, as
    many as the text has lines of fewer than four fields, wherever those
    are.  What it hands to PySCF is therefore always the end of the text,
    with as many lines as there are atom lines; these are the atom lines
    themselves exactly when every short line comes before every atom
    line. *)
Theorem get_pyscf_molecule_keeps_the_end
        (mol : PyscfMolecule.molecule) (basis : string) (m : Z) :
  PyscfMolecule.molecular_multiplicity mol = Some m ->
  let lines := PyStr.splitlines (PyscfMolecule.to_string_xyz mol) in
  let long := fun l => negb (PyscfMolecule.short_line l) in
  exists dropped kept : list string,
    lines = dropped ++ kept /\
    length dropped = length (List.filter PyscfMolecule.short_line lines) /\
    length kept = length (List.filter long lines) /\
    PyscfMolecule.get_pyscf_molecule mol basis
    = Ok {| PyscfMolecule.atom := PyStr.join PyStr.nl kept;
            PyscfMolecule.basis := basis;
            PyscfMolecule.spin := (m - 1)%Z |} /\
    (kept = List.filter long lines <-> PyscfMolecule.header_first lines).
Proof.
  intros Hm lines long.
  set (count := length (List.filter PyscfMolecule.short_line lines)).
  assert (Hle : count <= length lines) by apply filter_length_le.
  pose proof (filter_split_length PyscfMolecule.short_line lines) as Hsplit.
  fold count in Hsplit.
  exists (take count lines), (drop count lines).
  split; [symmetry; apply take_drop |].
  split; [rewrite length_take; lia |].
  split; [rewrite length_drop; subst long; cbv beta; lia |].
  split; [exact (get_pyscf_molecule_drops mol basis m Hm) |].
  split.
  - apply drop_count_only_header_first.
  - apply drop_count_header_first.
Qed.

Lemma get_pyscf_molecule_keeps_the_end_witness :
  exists dropped kept : list string,
    PyStr.splitlines (PyscfMolecule.to_string_xyz ScfExample.co) = dropped ++ kept /\
    length dropped = 2 /\
    PyscfMolecule.get_pyscf_molecule ScfExample.co "sto-3g"
    = Ok {| PyscfMolecule.atom := PyStr.join PyStr.nl kept;
            PyscfMolecule.basis := "sto-3g";
            PyscfMolecule.spin := 0%Z |}.
Proof.
  destruct (get_pyscf_molecule_keeps_the_end ScfExample.co "sto-3g" 1%Z eq_refl)
    as (dropped & kept & H1 & H2 & _ & H3 & _).
  exists dropped, kept. split; [exact H1 |]. split; [exact H2 | exact H3].
Defined.

(* ===================================================================== *)
(** * Further facts about the SCF method objects                          *)
(* ===================================================================== *)

Section ScfKeywords.
Import Scf ScfCalls.

Ltac run_M :=
  unfold setattr, copy;
  unfold read_object, read_array, write_array, alloc_array;
  unfold get_self, set_self, get_store, set_store, raise, lift,
    mbind, M_bind, mret, M_ret;
  cbn.

Lemma last_value_cons (attr : string) (value : pyval) (rest : list (string * pyval)) :
  last_value ((attr, value) :: rest)
  = match last_value rest with
    | Some v => Some v
    | None => Some value
    end.
Proof.
  unfold last_value. cbn [map snd].
  destruct (map snd rest) as [| v vs] eqn:E; [reflexivity |].
  change (last (value :: v :: vs)) with (last (v :: vs)).
  destruct (last (v :: vs)) as [x |] eqn:El; [reflexivity |].
  apply last_None in El. discriminate El.
Qed.

(** The keyword loop, run: the solver keeps its class, and its entries are
    those it had with [attr] set to the last value. *)
Lemma solve_scf_options_run (kw : list (string * pyval)) (w : world) (o : pyobject) :
  objects (store w) !! scf_object (self w) = Some o ->
  solve_scf_options kw w
  = ({| self := self w;
        store := {| arrays := arrays (store w);
                    objects :=
                      <[scf_object (self w) :=
                          {| cls := cls o;
                             dict := match last_value kw with
                                     | Some v => <["attr" := v]> (dict o)
                                     | None => dict o
                                     end |}]> (objects (store w)) |} |},
     Ok tt).
Proof.
  revert w o. induction kw as [| [attr value] rest IH]; intros w o Ho.
  - cbn. destruct w as [s [ar ob]], o as [c d]. cbn in *.
    rewrite list_insert_id by exact Ho. reflexivity.
  - cbn [solve_scf_options]. run_M. rewrite Ho. cbn.
    assert (Hl : scf_object (self w) < length (objects (store w)))
      by (eapply lookup_lt_Some, Ho).
    rewrite (IH _ {| cls := cls o; dict := <["attr" := value]> (dict o) |})
      by (cbn; apply list_lookup_insert_eq; exact Hl).
    cbn. rewrite list_insert_insert_eq, last_value_cons.
    destruct (last_value rest) as [v |]; [| reflexivity].
    rewrite insert_insert_eq. reflexivity.
Qed.

End ScfKeywords.

(** X10: whatever keywords [solve_scf] is given, the loop of lines 144-145
    sets no attribute of the solver but the one called [attr], which ends up
    holding the value of the last keyword; every other attribute, [conv_tol]
    among them, is what it was. *)
Theorem solve_scf_keywords_only_set_attr
        (kw : list (string * Scf.pyval)) (w : Scf.world) (o : Scf.pyobject) :
  Scf.objects (Scf.store w) !! Scf.scf_object (Scf.self w) = Some o ->
  exists (w' : Scf.world) (o' : Scf.pyobject),
    Scf.solve_scf_options kw w = (w', Ok tt) /\
    Scf.self w' = Scf.self w /\
    Scf.objects (Scf.store w') !! Scf.scf_object (Scf.self w') = Some o' /\
    Scf.cls o' = Scf.cls o /\
    (forall name, name <> "attr" -> Scf.dict o' !! name = Scf.dict o !! name) /\
    Scf.dict o' !! "attr"
    = match ScfCalls.last_value kw with
      | Some v => Some v
      | None => Scf.dict o !! "attr"
      end.
Proof.
  intros Ho. eexists. eexists. split; [apply (solve_scf_options_run kw w o Ho) |].
  cbn. split; [reflexivity |].
  split.
  { apply list_lookup_insert_eq. eapply lookup_lt_Some, Ho. }
  cbn. split; [reflexivity |].
  destruct (ScfCalls.last_value kw) as [v |].
  - split.
    + intros name Hn. apply lookup_insert_ne. congruence.
    + apply lookup_insert_eq.
  - split; reflexivity.
Qed.

Lemma solve_scf_keywords_only_set_attr_witness :
  exists (w' : Scf.world) (o' : Scf.pyobject),
    Scf.solve_scf_options
      [("conv_tol", Scf.PyFloat Scf.conv_tol_1e_12); ("max_cycle", Scf.PyInt 5)]
      ScfExample.w0 = (w', Ok tt) /\
    Scf.objects (Scf.store w') !! Scf.scf_object (Scf.self w') = Some o' /\
    Scf.dict o' !! "conv_tol" = Some (Scf.PyFloat ScfExample.conv_tol_default) /\
    Scf.dict o' !! "max_cycle" = None /\
    Scf.dict o' !! "attr" = Some (Scf.PyInt 5).
Proof.
  destruct (solve_scf_keywords_only_set_attr
              [("conv_tol", Scf.PyFloat Scf.conv_tol_1e_12); ("max_cycle", Scf.PyInt 5)]
              ScfExample.w0
              {| Scf.cls := Scf.RHF;
                 Scf.dict := {["conv_tol" := Scf.PyFloat ScfExample.conv_tol_default]} |}
              eq_refl)
    as (w' & o' & Hrun & _ & Ho' & _ & Hother & Hattr).
  exists w', o'. split; [exact Hrun |]. split; [exact Ho' |].
  split; [| split].
  - rewrite Hother by discriminate. reflexivity.
  - rewrite Hother by discriminate. reflexivity.
  - exact Hattr.
Defined.

Section ScfSolve.
Import Scf ScfCalls.

Variable pyscf_class_attr : solver_class -> string -> option pyval.
Variable pyscf_kernel : pyobject -> heap -> result (gmap string pyval).
Variable pyscf_make_rdm1 : pyobject -> result ndarray.

Local Abbreviation solve_scf :=
  (solve_scf pyscf_class_attr pyscf_kernel pyscf_make_rdm1).

Ltac run_M :=
  unfold setattr, copy;
  unfold read_object, read_array, write_array, alloc_array;
  unfold get_self, set_self, get_store, set_store, raise, lift,
    mbind, M_bind, mret, M_ret;
  cbn.

Lemma solve_scf_kernel_raises (kw : list (string * pyval)) (w : world)
      (o : pyobject) (ex : pyexc) :
  objects (store w) !! scf_object (self w) = Some o ->
  pyscf_kernel (ScfCalls.solver_after_keywords kw o)
               (ScfCalls.store_after_keywords kw w o) = Raise ex ->
  solve_scf kw w
  = ({| self := self w; store := store_after_keywords kw w o |}, Raise ex).
Proof.
  intros Ho Hk. unfold Scf.solve_scf.
  unfold mbind at 1, M_bind at 1. rewrite (solve_scf_options_run kw w o Ho).
  assert (Hl : scf_object (self w) < length (objects (store w)))
    by (eapply lookup_lt_Some, Ho).
  run_M. rewrite list_lookup_insert_eq by exact Hl. cbn.
  unfold store_after_keywords, solver_after_keywords in Hk. rewrite Hk.
  reflexivity.
Qed.

Lemma solve_scf_run (kw : list (string * pyval)) (w : world) (o : pyobject)
      (d : gmap string pyval) (e : pyval) :
  objects (store w) !! scf_object (self w) = Some o ->
  pyscf_kernel (ScfCalls.solver_after_keywords kw o)
               (ScfCalls.store_after_keywords kw w o) = Ok d ->
  d !! "e_tot" = Some e ->
  let s' := {| mol := mol (self w); new := new (self w);
               density := density (self w);
               energy := <["scf" := e]> (energy (self w));
               mol_pyscf := mol_pyscf (self w);
               scf_object := scf_object (self w);
               _scf_object := _scf_object (self w) |} in
  let ob' := <[scf_object (self w) := {| cls := cls o; dict := d |}]>
               (objects (store w)) in
  solve_scf kw w
  = match pyscf_make_rdm1 {| cls := cls o; dict := d |} with
    | Ok a =>
        ({| self := {| mol := mol (self w); new := new (self w);
                       density := PyNdarray (length (arrays (store w)));
                       energy := <["scf" := e]> (energy (self w));
                       mol_pyscf := mol_pyscf (self w);
                       scf_object := scf_object (self w);
                       _scf_object := _scf_object (self w) |};
            store := {| arrays := arrays (store w) ++ [a]; objects := ob' |} |},
         Ok tt)
    | Raise ex =>
        ({| self := s'; store := {| arrays := arrays (store w); objects := ob' |} |},
         Raise ex)
    end.
Proof.
  intros Ho Hk He s' ob'. subst s' ob'. unfold Scf.solve_scf.
  unfold mbind at 1, M_bind at 1. rewrite (solve_scf_options_run kw w o Ho).
  assert (Hl : scf_object (self w) < length (objects (store w)))
    by (eapply lookup_lt_Some, Ho).
  unfold getattr. run_M. rewrite list_lookup_insert_eq by exact Hl. cbn.
  unfold store_after_keywords, solver_after_keywords in Hk. rewrite Hk. cbn.
  rewrite list_insert_insert_eq.
  rewrite list_lookup_insert_eq by exact Hl. cbn. rewrite He. cbn.
  rewrite list_lookup_insert_eq by exact Hl. cbn.
  destruct (pyscf_make_rdm1 _) as [a | ex]; reflexivity.
Qed.

End ScfSolve.

(** X11: a [solve_scf] that goes through stores the solver's [e_tot] under
    [energy["scf"]] and makes [density] the array [make_rdm1] returned, a new
    array; the other energies, the flag [new] and the references
    [scf_object] and [_scf_object] stay as they were. *)
Theorem solve_scf_stores_results
        (pyscf_class_attr : Scf.solver_class -> string -> option Scf.pyval)
        (pyscf_kernel : Scf.pyobject -> Scf.heap -> result (gmap string Scf.pyval))
        (pyscf_make_rdm1 : Scf.pyobject -> result Scf.ndarray)
        (kw : list (string * Scf.pyval)) (w : Scf.world) (o : Scf.pyobject)
        (d : gmap string Scf.pyval) (e : Scf.pyval) (a : Scf.ndarray) :
  Scf.objects (Scf.store w) !! Scf.scf_object (Scf.self w) = Some o ->
  pyscf_kernel (ScfCalls.solver_after_keywords kw o)
               (ScfCalls.store_after_keywords kw w o) = Ok d ->
  d !! "e_tot" = Some e ->
  pyscf_make_rdm1 {| Scf.cls := Scf.cls o; Scf.dict := d |} = Ok a ->
  exists (w' : Scf.world) (r : Scf.loc),
    Scf.solve_scf pyscf_class_attr pyscf_kernel pyscf_make_rdm1 kw w = (w', Ok tt) /\
    Scf.energy (Scf.self w') !! "scf" = Some e /\
    (forall name, name <> "scf" ->
                  Scf.energy (Scf.self w') !! name = Scf.energy (Scf.self w) !! name) /\
    Scf.density (Scf.self w') = Scf.PyNdarray r /\
    Scf.arrays (Scf.store w) !! r = None /\
    Scf.arrays (Scf.store w') !! r = Some a /\
    Scf.new (Scf.self w') = Scf.new (Scf.self w) /\
    Scf.objects (Scf.store w') !! Scf.scf_object (Scf.self w')
    = Some {| Scf.cls := Scf.cls o; Scf.dict := d |} /\
    Scf.scf_object (Scf.self w') = Scf.scf_object (Scf.self w) /\
    Scf._scf_object (Scf.self w') = Scf._scf_object (Scf.self w).
Proof.
  intros Ho Hk He Ha.
  pose proof (solve_scf_run pyscf_class_attr pyscf_kernel pyscf_make_rdm1
                            kw w o d e Ho Hk He) as Hrun.
  cbv zeta in Hrun. rewrite Ha in Hrun.
  assert (Hl : Scf.scf_object (Scf.self w) < length (Scf.objects (Scf.store w)))
    by (eapply lookup_lt_Some, Ho).
  eexists. exists (length (Scf.arrays (Scf.store w))).
  split; [exact Hrun |]. cbn.
  split; [apply lookup_insert_eq |].
  split; [intros name Hn; apply lookup_insert_ne; congruence |].
  split; [reflexivity |].
  split; [apply lookup_ge_None_2; lia |].
  split; [apply list_lookup_middle; reflexivity |].
  split; [reflexivity |].
  split; [apply list_lookup_insert_eq; exact Hl |].
  split; reflexivity.
Qed.

Lemma solve_scf_stores_results_witness :
  exists (w' : Scf.world) (r : Scf.loc),
    Scf.solve_scf ScfExample.pyscf_class_attr ScfExample.pyscf_kernel
                  ScfExample.pyscf_make_rdm1
                  [("conv_tol", Scf.PyFloat Scf.conv_tol_1e_12)] ScfExample.w0
    = (w', Ok tt) /\
    Scf.energy (Scf.self w') !! "scf" = Some (Scf.PyFloat (-1.5)%float) /\
    Scf.density (Scf.self w') = Scf.PyNdarray r /\
    Scf.arrays (Scf.store w') !! r = Some ScfExample.hcore.
Proof.
  destruct (solve_scf_stores_results
              ScfExample.pyscf_class_attr ScfExample.pyscf_kernel
              ScfExample.pyscf_make_rdm1
              [("conv_tol", Scf.PyFloat Scf.conv_tol_1e_12)] ScfExample.w0
              {| Scf.cls := Scf.RHF;
                 Scf.dict := {["conv_tol" := Scf.PyFloat ScfExample.conv_tol_default]} |}
              _ (Scf.PyFloat (-1.5)%float) ScfExample.hcore
              eq_refl eq_refl eq_refl eq_refl)
    as (w' & r & Hrun & He & _ & Hd & _ & Ha & _).
  exists w', r. repeat (split; [assumption |]). exact Ha.
Defined.

(** X12: [solve_scf] that fails half way leaves the instance half updated:
    when the kernel raises, the energies and the density are those from
    before (the solver already carries [attr]); when the kernel goes through
    and [make_rdm1] raises, [energy["scf"]] is already the new [e_tot] while
    [density] is still the old one. *)
Theorem solve_scf_failure_not_undone
        (pyscf_class_attr : Scf.solver_class -> string -> option Scf.pyval)
        (pyscf_kernel : Scf.pyobject -> Scf.heap -> result (gmap string Scf.pyval))
        (pyscf_make_rdm1 : Scf.pyobject -> result Scf.ndarray)
        (kw : list (string * Scf.pyval)) (w : Scf.world) (o : Scf.pyobject) :
  Scf.objects (Scf.store w) !! Scf.scf_object (Scf.self w) = Some o ->
  (forall ex,
      pyscf_kernel (ScfCalls.solver_after_keywords kw o)
               (ScfCalls.store_after_keywords kw w o)
      = Raise ex ->
      exists w',
        Scf.solve_scf pyscf_class_attr pyscf_kernel pyscf_make_rdm1 kw w
        = (w', Raise ex) /\
        Scf.self w' = Scf.self w /\
        Scf.objects (Scf.store w') !! Scf.scf_object (Scf.self w')
        = Some (ScfCalls.solver_after_keywords kw o)) /\
  (forall d e ex,
      pyscf_kernel (ScfCalls.solver_after_keywords kw o)
               (ScfCalls.store_after_keywords kw w o)
      = Ok d ->
      d !! "e_tot" = Some e ->
      pyscf_make_rdm1 {| Scf.cls := Scf.cls o; Scf.dict := d |} = Raise ex ->
      exists w',
        Scf.solve_scf pyscf_class_attr pyscf_kernel pyscf_make_rdm1 kw w
        = (w', Raise ex) /\
        Scf.energy (Scf.self w') !! "scf" = Some e /\
        Scf.density (Scf.self w') = Scf.density (Scf.self w)).
Proof.
  intros Ho.
  assert (Hl : Scf.scf_object (Scf.self w) < length (Scf.objects (Scf.store w)))
    by (eapply lookup_lt_Some, Ho).
  split.
  - intros ex Hk. eexists.
    split; [exact (solve_scf_kernel_raises pyscf_class_attr pyscf_kernel
                     pyscf_make_rdm1 kw w o ex Ho Hk) |].
    cbn. split; [reflexivity |].
    apply list_lookup_insert_eq. exact Hl.
  - intros d e ex Hk He Hr.
    pose proof (solve_scf_run pyscf_class_attr pyscf_kernel pyscf_make_rdm1
                              kw w o d e Ho Hk He) as Hrun.
    cbv zeta in Hrun. rewrite Hr in Hrun.
    eexists. split; [exact Hrun |]. cbn.
    split; [apply lookup_insert_eq | reflexivity].
Qed.

Lemma solve_scf_failure_not_undone_witness :
  exists w',
    Scf.solve_scf ScfExample.pyscf_class_attr ScfExample.pyscf_kernel
                  (fun _ => Raise ValueError) [] ScfExample.w0
    = (w', Raise ValueError) /\
    Scf.energy (Scf.self w') !! "scf" = Some (Scf.PyFloat (-1.5)%float) /\
    Scf.density (Scf.self w') = Scf.PyList [].
Proof.
  exact (proj2 (solve_scf_failure_not_undone
                  ScfExample.pyscf_class_attr ScfExample.pyscf_kernel
                  (fun _ => Raise ValueError) [] ScfExample.w0
                  {| Scf.cls := Scf.RHF;
                     Scf.dict :=
                       {["conv_tol" := Scf.PyFloat ScfExample.conv_tol_default]} |}
                  eq_refl)
               _ (Scf.PyFloat (-1.5)%float) ValueError eq_refl eq_refl eq_refl).
Defined.

Section ScfGetters.
Import Scf ScfCalls.

Ltac run_M :=
  unfold setattr, copy;
  unfold read_object, read_array, write_array, alloc_array;
  unfold get_self, set_self, get_store, set_store, raise, lift,
    mbind, M_bind, mret, M_ret;
  cbn.

(** Taking the truth value of something changes nothing. *)
Lemma truthy_pure (v : pyval) (w : world) : fst (truthy v w) = w.
Proof.
  destruct v; try reflexivity.
  unfold truthy. run_M.
  destruct (arrays (store w) !! a) as [arr |]; cbn; [| reflexivity].
  destruct (rows arr * cols arr) as [| [| n]]; reflexivity.
Qed.

Lemma energy_scf_Ok_inv (w w1 : world) (v : pyval) :
  energy_scf w = (w1, Ok v) -> w1 = w /\ energy (self w) !! "scf" = Some v.
Proof.
  unfold energy_scf. run_M.
  destruct (energy (self w) !! "scf") as [x |]; cbn; intros H; [| discriminate H].
  injection H as <- <-. split; reflexivity.
Qed.

(** What [get_energy] returns is what [energy["scf"]] holds afterwards. *)
Lemma get_energy_Ok_inv (solve : list (string * pyval) -> M unit)
      (w w1 : world) (v : pyval) :
  get_energy solve w = (w1, Ok v) -> energy (self w1) !! "scf" = Some v.
Proof.
  unfold get_energy. unfold mbind at 1 2, M_bind at 1 2, get_self at 1.
  cbv beta iota.
  pose proof (truthy_pure (default (PyInt 0) (energy (self w) !! "scf")) w) as Hp.
  destruct (truthy _ w) as [w' [c | ex]]; cbn [fst] in Hp; subst w';
    [| discriminate].
  destruct c.
  - intros H. apply energy_scf_Ok_inv in H as [-> H]. exact H.
  - unfold mbind, M_bind.
    destruct (solve _ w) as [w2 [[] | ex]]; [| discriminate].
    intros H. apply energy_scf_Ok_inv in H as [-> H]. exact H.
Qed.

End ScfGetters.

(** X13: once [get_energy] has returned a float other than zero, calling
    it again returns the same number and changes nothing; the solver is not
    run a second time, whatever [solve_scf] would do. *)
Theorem get_energy_second_call_cached
        (solve solve' : list (string * Scf.pyval) -> Scf.M unit)
        (w w1 : Scf.world) (e : float) :
  Scf.get_energy solve w = (w1, Ok (Scf.PyFloat e)) ->
  PrimFloat.eqb e 0%float = false ->
  Scf.get_energy solve' w1 = (w1, Ok (Scf.PyFloat e)).
Proof.
  intros H Hz. apply get_energy_cached; [| exact Hz].
  exact (get_energy_Ok_inv solve w w1 _ H).
Qed.

Lemma get_energy_second_call_cached_witness :
  let solve := Scf.solve_scf ScfExample.pyscf_class_attr ScfExample.pyscf_kernel
                             ScfExample.pyscf_make_rdm1 in
  let w1 := fst (Scf.get_energy solve ScfExample.w0) in
  Scf.get_energy (fun _ => Scf.raise NotImplementedError) w1
  = (w1, Ok (Scf.PyFloat (-1.5)%float)).
Proof.
  intros solve w1.
  apply (get_energy_second_call_cached solve _ ScfExample.w0 w1 (-1.5)%float).
  - vm_compute. reflexivity.
  - reflexivity.
Defined.

(** X14: on a class that keeps the base [solve_scf], which takes no
    keyword, [get_energy] and [get_density] without a stored result end in
    the TypeError of the call [solve_scf(conv_tol=1e-12)], not in a
    NotImplementedError, and change nothing. *)
Theorem base_class_getters_raise_type_error
        (np_ne_empty_list : Scf.ndarray -> result bool) (w : Scf.world) :
  (Scf.energy (Scf.self w) !! "scf" = None ->
   Scf.get_energy Scf.ScfMethod_solve_scf w = (w, Raise TypeError)) /\
  (Scf.density (Scf.self w) = Scf.PyList [] ->
   Scf.get_density np_ne_empty_list Scf.ScfMethod_solve_scf w
   = (w, Raise TypeError)) /\
  Scf.ScfMethod_solve_scf [] w = (w, Raise NotImplementedError).
Proof.
  split; [| split].
  - intros He. rewrite get_energy_missing_reruns by exact He. reflexivity.
  - intros Hd. unfold Scf.get_density, mbind, Scf.M_bind, Scf.get_self. cbn.
    rewrite Hd. reflexivity.
  - reflexivity.
Qed.

Lemma base_class_getters_raise_type_error_witness :
  Scf.get_energy Scf.ScfMethod_solve_scf ScfExample.w0
  = (ScfExample.w0, Raise TypeError) /\
  Scf.get_density ScfExample.np_ne_empty_list Scf.ScfMethod_solve_scf ScfExample.w0
  = (ScfExample.w0, Raise TypeError).
Proof.
  split.
  - exact (proj1 (base_class_getters_raise_type_error
                    ScfExample.np_ne_empty_list ScfExample.w0) eq_refl).
  - exact (proj1 (proj2 (base_class_getters_raise_type_error
                           ScfExample.np_ne_empty_list ScfExample.w0)) eq_refl).
Defined.

Section ScfPerturbAgain.
Import Scf ScfCalls.

Variable pyscf_get_hcore : pyobject -> list pyval -> result ndarray.

Local Abbreviation call_get_hcore := (call_get_hcore pyscf_get_hcore).
Local Abbreviation perturb_fock := (perturb_fock pyscf_get_hcore).

Ltac run_M :=
  unfold setattr, copy;
  unfold read_object, read_array, write_array, alloc_array;
  unfold get_self, set_self, get_store, set_store, raise, lift,
    mbind, M_bind, mret, M_ret;
  cbn.

(** A second potential gets the first one with it. *)
Lemma perturb_fock_again (w' : world) (p q : loc) (P' Q : ndarray) :
  arrays (store w') !! p = Some P' ->
  call_get_hcore (scf_object (self w')) [] w' = (w', Ok (PyNdarray p)) ->
  arrays (store w') !! q = Some Q ->
  rows P' = rows Q -> cols P' = cols Q ->
  exists (w'' : world) (Q' : ndarray),
    perturb_fock (PyNdarray q) w' = (w'', Ok tt) /\
    arrays (store w'') !! q = Some Q' /\
    (forall i j, data Q' i j = (data Q i j + data P' i j)%R) /\
    (forall args,
        call_get_hcore (scf_object (self w'')) args w'' = (w'', Ok (PyNdarray q))).
Proof.
  intros HP Hcall HQ Hr Hc.
  destruct (perturb_fock_Ok pyscf_get_hcore w' w' q p Q P' HQ Hcall HP Hr Hc)
    as (w'' & Q' & Hrun & HQ' & _ & _ & Hdata & _ & Hlam).
  exists w'', Q'. repeat (split; [assumption |]). exact Hlam.
Qed.

(** A potential whose shape the core Hamiltonian does not fit. *)
Lemma perturb_fock_mismatch (w w1 : world) (p r : loc) (P H : ndarray) :
  arrays (store w) !! p = Some P ->
  call_get_hcore (scf_object (self w)) [] w = (w1, Ok (PyNdarray r)) ->
  arrays (store w1) !! r = Some H ->
  (rows H <> rows P /\ rows H <> 1) \/ (cols H <> cols P /\ cols H <> 1) ->
  perturb_fock (PyNdarray p) w = (w1, Raise ValueError) /\
  arrays (store w1) !! p = Some P /\
  self w1 = self w /\
  objects (store w1) = objects (store w).
Proof.
  intros HP Hcall HH Hshape.
  destruct (call_get_hcore_Ok_inv _ _ _ _ _ _ Hcall) as (o & Ho & Hs & Hob & Har).
  assert (HP1 : arrays (store w1) !! p = Some P).
  { destruct Har as [-> | [a ->]]; [exact HP |].
    rewrite lookup_app_l; [exact HP |]. eapply lookup_lt_Some, HP. }
  split; [| auto].
  unfold Scf.perturb_fock. unfold mbind at 1, M_bind at 1, get_self at 1.
  cbv beta iota. unfold mbind at 1, M_bind at 1. cbv beta.
  rewrite Hcall. run_M. rewrite HP1. cbn. rewrite HH. cbn.
  unfold np_iadd.
  destruct Hshape as [[H1 H2] | [H1 H2]].
  - apply Nat.eqb_neq in H1, H2. rewrite H1, H2. reflexivity.
  - apply Nat.eqb_neq in H1, H2. rewrite H1, H2, andb_false_r. reflexivity.
Qed.

End ScfPerturbAgain.

(** X15: perturbations add up.  After [perturb_fock(p)] has gone through,
    [perturb_fock(q)] adds to [q] what [p] holds by then, the first
    potential together with the core Hamiltonian, and makes [q] the core
    Hamiltonian of the solver; with the same array again, [p] is doubled. *)
Theorem perturb_fock_twice_adds_up
        (pyscf_get_hcore : Scf.pyobject -> list Scf.pyval -> result Scf.ndarray)
        (w w1 : Scf.world) (p r : Scf.loc) (P H : Scf.ndarray) :
  Scf.arrays (Scf.store w) !! p = Some P ->
  Scf.call_get_hcore pyscf_get_hcore (Scf.scf_object (Scf.self w)) [] w
  = (w1, Ok (Scf.PyNdarray r)) ->
  Scf.arrays (Scf.store w1) !! r = Some H ->
  Scf.rows H = Scf.rows P -> Scf.cols H = Scf.cols P ->
  exists w' : Scf.world,
    Scf.perturb_fock pyscf_get_hcore (Scf.PyNdarray p) w = (w', Ok tt) /\
    (forall (q : Scf.loc) (Q : Scf.ndarray),
        q <> p ->
        Scf.arrays (Scf.store w') !! q = Some Q ->
        Scf.rows Q = Scf.rows P -> Scf.cols Q = Scf.cols P ->
        exists (w'' : Scf.world) (Q' : Scf.ndarray),
          Scf.perturb_fock pyscf_get_hcore (Scf.PyNdarray q) w' = (w'', Ok tt) /\
          Scf.arrays (Scf.store w'') !! q = Some Q' /\
          (forall i j,
              Scf.data Q' i j
              = (Scf.data Q i j + (Scf.data P i j + Scf.data H i j))%R) /\
          (forall args,
              Scf.call_get_hcore pyscf_get_hcore
                                 (Scf.scf_object (Scf.self w'')) args w''
              = (w'', Ok (Scf.PyNdarray q)))) /\
    (exists (w'' : Scf.world) (P'' : Scf.ndarray),
        Scf.perturb_fock pyscf_get_hcore (Scf.PyNdarray p) w' = (w'', Ok tt) /\
        Scf.arrays (Scf.store w'') !! p = Some P'' /\
        (forall i j,
            Scf.data P'' i j = (2 * (Scf.data P i j + Scf.data H i j))%R)).
Proof.
  intros HP Hcall HH Hr Hc.
  destruct (perturb_fock_Ok pyscf_get_hcore w w1 p r P H HP Hcall HH Hr Hc)
    as (w' & P' & Hrun & HP' & Hr' & Hc' & Hdata & _ & Hlam).
  exists w'. split; [exact Hrun |]. split.
  - intros q Q _ HQ HrQ HcQ.
    destruct (perturb_fock_again pyscf_get_hcore w' p q P' Q HP' (Hlam [])
                                 HQ ltac:(congruence) ltac:(congruence))
      as (w'' & Q' & Hrun' & HQ' & Hd' & Hlam').
    exists w'', Q'. split; [exact Hrun' |]. split; [exact HQ' |].
    split; [| exact Hlam'].
    intros i j. rewrite Hd', Hdata. reflexivity.
  - destruct (perturb_fock_again pyscf_get_hcore w' p p P' P' HP' (Hlam [])
                                 HP' eq_refl eq_refl)
      as (w'' & P'' & Hrun' & HP'' & Hd' & _).
    exists w'', P''. split; [exact Hrun' |]. split; [exact HP'' |].
    intros i j. rewrite Hd', Hdata. lra.
Qed.

Lemma perturb_fock_twice_adds_up_witness :
  exists (w' w'' : Scf.world) (P'' : Scf.ndarray),
    Scf.perturb_fock ScfExample.pyscf_get_hcore (Scf.PyNdarray 0) ScfExample.w_pot
    = (w', Ok tt) /\
    Scf.perturb_fock ScfExample.pyscf_get_hcore (Scf.PyNdarray 0) w' = (w'', Ok tt) /\
    Scf.arrays (Scf.store w'') !! 0 = Some P'' /\
    Scf.data P'' 0 0 = (2 * (5 + 2))%R.
Proof.
  destruct (perturb_fock_twice_adds_up
              ScfExample.pyscf_get_hcore ScfExample.w_pot
              {| Scf.self := Scf.self ScfExample.w_pot;
                 Scf.store :=
                   {| Scf.arrays := [ScfExample.pot; ScfExample.hcore];
                      Scf.objects := Scf.objects (Scf.store ScfExample.w_pot) |} |}
              0 1 ScfExample.pot ScfExample.hcore)
    as (w' & Hrun & _ & w'' & P'' & Hrun' & HP'' & Hd).
  - reflexivity.
  - vm_compute. reflexivity.
  - reflexivity.
  - reflexivity.
  - reflexivity.
  - exists w', w'', P''. split; [exact Hrun |]. split; [exact Hrun' |].
    split; [exact HP'' | apply Hd].
Defined.

(** X16: when the core Hamiltonian does not fit the shape of the potential,
    [perturb_fock] raises the ValueError of [pot += ref] before anything is
    overridden: the potential holds what it held, the instance and the
    solver objects are as before. *)
Theorem perturb_fock_shape_mismatch
        (pyscf_get_hcore : Scf.pyobject -> list Scf.pyval -> result Scf.ndarray)
        (w w1 : Scf.world) (p r : Scf.loc) (P H : Scf.ndarray) :
  Scf.arrays (Scf.store w) !! p = Some P ->
  Scf.call_get_hcore pyscf_get_hcore (Scf.scf_object (Scf.self w)) [] w
  = (w1, Ok (Scf.PyNdarray r)) ->
  Scf.arrays (Scf.store w1) !! r = Some H ->
  (Scf.rows H <> Scf.rows P /\ Scf.rows H <> 1) \/
  (Scf.cols H <> Scf.cols P /\ Scf.cols H <> 1) ->
  Scf.perturb_fock pyscf_get_hcore (Scf.PyNdarray p) w = (w1, Raise ValueError) /\
  Scf.arrays (Scf.store w1) !! p = Some P /\
  Scf.self w1 = Scf.self w /\
  Scf.objects (Scf.store w1) = Scf.objects (Scf.store w).
Proof. apply perturb_fock_mismatch. Qed.

Lemma perturb_fock_shape_mismatch_witness :
  let hcore2 := {| Scf.rows := 2; Scf.cols := 2; Scf.data := fun _ _ => 2%R |} in
  let w1 := {| Scf.self := Scf.self ScfExample.w_pot;
               Scf.store :=
                 {| Scf.arrays := [ScfExample.pot; hcore2];
                    Scf.objects := Scf.objects (Scf.store ScfExample.w_pot) |} |} in
  Scf.perturb_fock (fun _ _ => Ok hcore2) (Scf.PyNdarray 0) ScfExample.w_pot
  = (w1, Raise ValueError) /\
  Scf.arrays (Scf.store w1) !! 0 = Some ScfExample.pot.
Proof.
  intros hcore2 w1.
  destruct (perturb_fock_shape_mismatch
              (fun _ _ => Ok hcore2) ScfExample.w_pot w1 0 1 ScfExample.pot hcore2)
    as (Hrun & HP & _).
  - reflexivity.
  - vm_compute. reflexivity.
  - reflexivity.
  - left. cbn. lia.
  - split; [exact Hrun | exact HP].
Defined.

(** X18: [restore_scf_object] recovers the solver, not the caller's array:
    after [perturb_fock(p)] and [restore_scf_object()] the array [p] still
    holds the potential plus the core Hamiltonian, while the solver in use is
    again the one of the clean copy. *)
Theorem restore_leaves_potential_perturbed
        (pyscf_get_hcore : Scf.pyobject -> list Scf.pyval -> result Scf.ndarray)
        (w w1 : Scf.world) (p r : Scf.loc) (P H : Scf.ndarray) (o0 : Scf.pyobject) :
  ScfCalls.clean_copy_is o0 w ->
  Scf.arrays (Scf.store w) !! p = Some P ->
  Scf.call_get_hcore pyscf_get_hcore (Scf.scf_object (Scf.self w)) [] w
  = (w1, Ok (Scf.PyNdarray r)) ->
  Scf.arrays (Scf.store w1) !! r = Some H ->
  Scf.rows H = Scf.rows P -> Scf.cols H = Scf.cols P ->
  exists (w' w2 : Scf.world) (P' : Scf.ndarray),
    Scf.perturb_fock pyscf_get_hcore (Scf.PyNdarray p) w = (w', Ok tt) /\
    Scf.restore_scf_object w' = (w2, Ok tt) /\
    Scf.objects (Scf.store w2) !! Scf.scf_object (Scf.self w2) = Some o0 /\
    Scf.arrays (Scf.store w2) !! p = Some P' /\
    (forall i j, Scf.data P' i j = (Scf.data P i j + Scf.data H i j)%R).
Proof.
  intros Hclean HP Hcall HH Hr Hc.
  destruct (perturb_fock_Ok pyscf_get_hcore w w1 p r P H HP Hcall HH Hr Hc)
    as (w' & P' & Hrun & HP' & _ & _ & Hdata & _ & _).
  pose proof (perturb_fock_frame pyscf_get_hcore (Scf.PyNdarray p) w) as Hf.
  rewrite Hrun in Hf. cbn [fst] in Hf.
  pose proof (keeps_clean_copy o0 w w' (frame_keeps w w' Hf) Hclean) as Hclean'.
  destruct (restore_clean_copy o0 w' Hclean') as (w2 & Hrun2 & H2 & Har & _).
  exists w', w2, P'. split; [exact Hrun |]. split; [exact Hrun2 |].
  split; [exact H2 |]. split; [rewrite Har; exact HP' | exact Hdata].
Qed.

Lemma restore_leaves_potential_perturbed_witness :
  exists (w' w2 : Scf.world) (P' : Scf.ndarray),
    Scf.perturb_fock ScfExample.pyscf_get_hcore (Scf.PyNdarray 0) ScfExample.w_pot
    = (w', Ok tt) /\
    Scf.restore_scf_object w' = (w2, Ok tt) /\
    Scf.arrays (Scf.store w2) !! 0 = Some P' /\
    Scf.data P' 0 0 = (5 + 2)%R.
Proof.
  destruct (restore_leaves_potential_perturbed
              ScfExample.pyscf_get_hcore ScfExample.w_pot
              {| Scf.self := Scf.self ScfExample.w_pot;
                 Scf.store :=
                   {| Scf.arrays := [ScfExample.pot; ScfExample.hcore];
                      Scf.objects := Scf.objects (Scf.store ScfExample.w_pot) |} |}
              0 1 ScfExample.pot ScfExample.hcore
              {| Scf.cls := Scf.RHF;
                 Scf.dict := {["conv_tol" := Scf.PyFloat ScfExample.conv_tol_default]} |})
    as (w' & w2 & P' & Hrun & Hrun2 & _ & HP' & Hd).
  - split; [reflexivity | cbn; lia].
  - reflexivity.
  - vm_compute. reflexivity.
  - reflexivity.
  - reflexivity.
  - reflexivity.
  - exists w', w2, P'. split; [exact Hrun |]. split; [exact Hrun2 |].
    split; [exact HP' | apply Hd].
Defined.
